(** * Premium moderation bot: a shallow embedding of [bot.py]

    The development follows the source top-down: the documents kept in the
    three MongoDB collections, the [DatabaseManager] operations, then the
    handlers of [PremiumModerationBot].  External effects (the database
    round trips, the Telegram transport, the clock and the logger) are
    threaded through an explicit [World]; Python exceptions are the
    [Raise] outcome of a small state-and-error monad.  The transport
    library is python-telegram-bot 21.7, as the header of [bot.py] says:
    where the source uses an attribute or a parameter that this version
    does not have, the embedding raises what the library raises. *)

From Stdlib Require Import ZArith Lia Bool Ascii String List.
From stdpp Require Import base option list gmap strings.
From stdpp Require Import sorting.
Import ListNotations.

#[local] Set Warnings "-clear-no-such-hyp".

Local Open Scope string_scope.
Local Open Scope Z_scope.

(** ** Documents and transport objects *)

(** [datetime] values are counted in whole seconds from the epoch (the
    microseconds are dropped, rounding down); [timedelta(days=d)] and
    [timedelta(hours=h)] are the corresponding numbers of seconds.  A
    [datetime] lies between [datetime.min] (0001-01-01 00:00:00) and
    [datetime.max] (the last second of 9999-12-31), and a [timedelta]
    counts at most 999999999 days either way: the operations that would
    leave these ranges raise [OverflowError], see [timedelta_of_days] and
    [datetime_add] below. *)
Definition datetime := Z.

Definition timedelta_days (days : Z) : Z := days * 86400.
Definition timedelta_hours (hours : Z) : Z := hours * 3600.

Definition DATETIME_MIN : datetime := -62135596800.
Definition DATETIME_MAX : datetime := 253402300799.
Definition TIMEDELTA_MAX_DAYS : Z := 999999999.

(** Bot constants. *)
Definition WARNING_LIMIT : Z := 3.
Definition MUTE_DURATION : Z := 24.
Definition REMINDER_INTERVAL : Z := 6.

(** A document of the [users] collection, with the fields [create_user]
    writes and the [last_warning] field [update_user_warning] adds. *)
Record UserDoc := mkUserDoc {
  user_id : Z;
  username : string;
  first_name : string;
  last_name : string;
  join_date : datetime;
  warning_count : Z;
  is_muted : bool;
  is_banned : bool;
  subscription_expiry : option datetime;
  last_reminder : option datetime;
  last_warning : option datetime
}.

(** A document of the [warnings] collection. *)
Record WarningDoc := mkWarningDoc {
  w_user_id : Z;
  w_reason : string;
  w_admin_id : Z;
  w_timestamp : datetime;
  w_resolved : bool
}.

(** A document of the [subscriptions] collection; its [user_id] is the key
    under which it is stored. *)
Record SubscriptionDoc := mkSubscriptionDoc {
  expiry_date : datetime;
  updated_at : datetime
}.

(** Field updates, as the [$set] and [$inc] operators of the source use
    them. *)
Definition inc_warning_count (delta : Z) (d : UserDoc) : UserDoc :=
  mkUserDoc (user_id d) (username d) (first_name d) (last_name d) (join_date d)
    (warning_count d + delta) (is_muted d) (is_banned d)
    (subscription_expiry d) (last_reminder d) (last_warning d).

Definition set_warning_count (c : Z) (d : UserDoc) : UserDoc :=
  mkUserDoc (user_id d) (username d) (first_name d) (last_name d) (join_date d)
    c (is_muted d) (is_banned d)
    (subscription_expiry d) (last_reminder d) (last_warning d).

Definition set_last_warning (t : datetime) (d : UserDoc) : UserDoc :=
  mkUserDoc (user_id d) (username d) (first_name d) (last_name d) (join_date d)
    (warning_count d) (is_muted d) (is_banned d)
    (subscription_expiry d) (last_reminder d) (Some t).

Definition set_is_muted (b : bool) (d : UserDoc) : UserDoc :=
  mkUserDoc (user_id d) (username d) (first_name d) (last_name d) (join_date d)
    (warning_count d) b (is_banned d)
    (subscription_expiry d) (last_reminder d) (last_warning d).

Definition set_is_banned (b : bool) (d : UserDoc) : UserDoc :=
  mkUserDoc (user_id d) (username d) (first_name d) (last_name d) (join_date d)
    (warning_count d) (is_muted d) b
    (subscription_expiry d) (last_reminder d) (last_warning d).

Definition set_subscription_expiry (e : option datetime) (d : UserDoc) : UserDoc :=
  mkUserDoc (user_id d) (username d) (first_name d) (last_name d) (join_date d)
    (warning_count d) (is_muted d) (is_banned d)
    e (last_reminder d) (last_warning d).

(** Telegram objects, as python-telegram-bot 21.7 (the version the file
    names in its header) defines them, restricted to the attributes the
    handlers read.  A [Message] of that version has no attribute
    [forward_date], [forward_from] or [forward_from_chat]: reading one
    raises, see [message_forward_markers] below. *)
Record User := mkUser {
  id : Z;
  tg_username : option string;
  tg_first_name : string;
  tg_last_name : option string;
  is_bot : bool
}.

Record Chat := mkChat { chat_id : Z }.

Inductive EntityType := url | text_link | mention | hashtag | bold | other_entity.

Record Message := mkMessage {
  message_id : Z;
  from_user : option User;
  chat : Chat;
  entities : list EntityType;
  caption_entities : list EntityType;
  text : option string;
  caption : option string;
  new_chat_members : list User
}.

(** What [Update.message] can hold: a message delivered by the transport,
    or the [MockMessage] object that [admin_warn] builds, which has a
    [message_id] and a [delete] attribute and nothing else. *)
Inductive MessageObj :=
  | TgMessage (m : Message)
  | MockMessage.

Record Update := mkUpdate {
  update_id : Z;
  message : option MessageObj
}.

(** The sanction tags assigned to the local variable [action]. *)
Inductive Action := WARNING | MUTE | MUTE_FAILED | BAN | BAN_FAILED.

(** The texts the bot sends, one constructor per template of the source,
    carrying the interpolated values. *)
Inductive Text :=
  | AdminsOnly
  | BotActive
  | BotActivated
  | WelcomeMsg (first : string)
  | NewMemberAlert (first last uname : string) (uid : Z) (time : datetime)
  | WarningMsg (new_warning_count : Z) (first reason : string)
  | MuteMsg (first reason : string) (new_warning_count : Z)
  | BanMsg (first reason : string) (new_warning_count : Z)
  | ViolationAlert (first uname : string) (uid : Z) (reason : string)
      (new_warning_count : Z) (action : Action) (time : datetime)
  | ReminderMsg
  | ExpiredAlert (uid : Z) (first : string)
  | WarnUsage
  | WarningIssued (uid : Z)
  | InvalidUserId
  | ErrorIssuingWarning.

(** Calls made on the transport. *)
Inductive Call :=
  | send_message (chat_id : Z) (text : Text)
  | reply_text (text : Text)
  | delete (message_id : Z)
  | restrict_member (chat_id uid : Z) (until_date : datetime)
  | ban_member (chat_id uid : Z).

(** ** The world and the monad *)

(** The three collections, the clock (it stands still during the run of
    one handler), the bot's [group_id] field, the outcome schedules of the
    calls still to come on the database and on the transport ([true]: that
    call raises; an exhausted schedule: every further call goes through),
    the transport calls attempted so far with whether each went through
    (oldest first), and the sites that logged an error (oldest first). *)
Record World := mkWorld {
  users : gmap Z UserDoc;
  warnings : list WarningDoc;
  subscriptions : gmap Z SubscriptionDoc;
  utcnow : datetime;
  group_id : option Z;
  db_faults : list bool;
  tg_faults : list bool;
  trace : list (Call * bool);
  errors : list string
}.

Definition with_users (f : gmap Z UserDoc -> gmap Z UserDoc) (w : World) : World :=
  mkWorld (f (users w)) (warnings w) (subscriptions w) (utcnow w) (group_id w)
    (db_faults w) (tg_faults w) (trace w) (errors w).

Definition with_warnings (f : list WarningDoc -> list WarningDoc) (w : World) : World :=
  mkWorld (users w) (f (warnings w)) (subscriptions w) (utcnow w) (group_id w)
    (db_faults w) (tg_faults w) (trace w) (errors w).

Definition with_subscriptions
    (f : gmap Z SubscriptionDoc -> gmap Z SubscriptionDoc) (w : World) : World :=
  mkWorld (users w) (warnings w) (f (subscriptions w)) (utcnow w) (group_id w)
    (db_faults w) (tg_faults w) (trace w) (errors w).

Definition with_group_id (g : option Z) (w : World) : World :=
  mkWorld (users w) (warnings w) (subscriptions w) (utcnow w) g
    (db_faults w) (tg_faults w) (trace w) (errors w).

Definition with_db_faults (fs : list bool) (w : World) : World :=
  mkWorld (users w) (warnings w) (subscriptions w) (utcnow w) (group_id w)
    fs (tg_faults w) (trace w) (errors w).

Definition with_tg_faults (fs : list bool) (w : World) : World :=
  mkWorld (users w) (warnings w) (subscriptions w) (utcnow w) (group_id w)
    (db_faults w) fs (trace w) (errors w).

Definition with_trace (f : list (Call * bool) -> list (Call * bool)) (w : World) : World :=
  mkWorld (users w) (warnings w) (subscriptions w) (utcnow w) (group_id w)
    (db_faults w) (tg_faults w) (f (trace w)) (errors w).

Definition with_errors (f : list string -> list string) (w : World) : World :=
  mkWorld (users w) (warnings w) (subscriptions w) (utcnow w) (group_id w)
    (db_faults w) (tg_faults w) (trace w) (f (errors w)).

(** Python exceptions that the modelled code can raise. *)
Inductive exn :=
  | PyMongoError
  | TelegramError
  | AttributeError
  | UnboundLocalError
  | TypeError
  | ValueError
  | OverflowError.

Inductive result (A : Type) :=
  | Ok (a : A)
  | Raise (e : exn).
Arguments Ok {A} a.
Arguments Raise {A} e.

Definition M (A : Type) : Type := World -> result A * World.

Definition ret {A} (a : A) : M A := fun w => (Ok a, w).

Definition bind {A B} (m : M A) (k : A -> M B) : M B :=
  fun w => match m w with
           | (Ok a, w') => k a w'
           | (Raise e, w') => (Raise e, w')
           end.

Definition raise {A} (e : exn) : M A := fun w => (Raise e, w).

Definition gets {A} (f : World -> A) : M A := fun w => (Ok (f w), w).

Definition modify (f : World -> World) : M unit := fun w => (Ok tt, f w).

Notation "'let*' x ':=' m 'in' k" := (bind m (fun x => k))
  (at level 10, x pattern, m at level 100, k at level 200).
Notation "m1 '>>' m2" := (bind m1 (fun _ => m2))
  (at level 100, m2 at level 200, right associativity).

(** [try: body except <class> as e: handler]; [catches] tells which
    exceptions the clause names. *)
Definition try_except {A} (body : M A) (catches : exn -> bool) (handler : exn -> M A) : M A :=
  fun w => match body w with
           | (Ok a, w') => (Ok a, w')
           | (Raise e, w') => if catches e then handler e w' else (Raise e, w')
           end.

Definition except_PyMongoError (e : exn) : bool :=
  match e with PyMongoError => true | _ => false end.

Definition except_ValueError (e : exn) : bool :=
  match e with ValueError => true | _ => false end.

Definition except_Exception (e : exn) : bool := true.

(** [logger.error(...)] at the named site. *)
Definition logger_error (site : string) : M unit :=
  modify (with_errors (fun l => (l ++ [site])%list)).

Definition datetime_utcnow : M datetime := gets utcnow.

(** [timedelta(days=days)]. *)
Definition timedelta_of_days (days : Z) : M Z :=
  if Z.abs days <=? TIMEDELTA_MAX_DAYS then ret (timedelta_days days)
  else raise OverflowError.

(** [t + delta] on a [datetime]. *)
Definition datetime_add (t : datetime) (delta : Z) : M datetime :=
  if (DATETIME_MIN <=? t + delta) && (t + delta <=? DATETIME_MAX) then ret (t + delta)
  else raise OverflowError.

(** One round trip to the database: it raises [PyMongoError] when the
    schedule says so. *)
Definition db_roundtrip : M unit :=
  fun w => match db_faults w with
           | true :: fs => (Raise PyMongoError, with_db_faults fs w)
           | false :: fs => (Ok tt, with_db_faults fs w)
           | [] => (Ok tt, w)
           end.

(** One call on the transport: the attempt is recorded, and it raises when
    the schedule says so. *)
Definition tg_call (c : Call) : M unit :=
  fun w => match tg_faults w with
           | true :: fs =>
               (Raise TelegramError, with_trace (fun t => (t ++ [(c, false)])%list) (with_tg_faults fs w))
           | false :: fs =>
               (Ok tt, with_trace (fun t => (t ++ [(c, true)])%list) (with_tg_faults fs w))
           | [] => (Ok tt, with_trace (fun t => (t ++ [(c, true)])%list) w)
           end.

(** ** The collections

    The driver calls the source makes, each one round trip.  The [users]
    and [subscriptions] collections carry the unique index on [user_id]
    that [setup_indexes] creates, so they are maps keyed by it, and
    [insert_one] on a key already present raises the driver's
    [DuplicateKeyError], a [PyMongoError]. *)

Definition users_find_one (uid : Z) : M (option UserDoc) :=
  db_roundtrip >> gets (fun w => users w !! uid).

Definition users_insert_one (d : UserDoc) : M unit :=
  db_roundtrip >>
  let* present := gets (fun w => users w !! user_id d) in
  match present with
  | Some _ => raise PyMongoError
  | None => modify (with_users (insert (user_id d) d))
  end.

(** [update_one({"user_id": uid}, update)]; the value is the number of
    documents matched.  The one caller that reads [modified_count] issues
    an [$inc] by a non-zero amount, which modifies the document it
    matches. *)
Definition users_update_one (uid : Z) (update : UserDoc -> UserDoc) : M Z :=
  db_roundtrip >>
  let* present := gets (fun w => users w !! uid) in
  match present with
  | Some _ => modify (with_users (alter update uid)) >> ret 1
  | None => ret 0
  end.

Definition warnings_insert_one (d : WarningDoc) : M unit :=
  db_roundtrip >> modify (with_warnings (fun l => (l ++ [d])%list)).

Fixpoint insert_descending (x : WarningDoc) (l : list WarningDoc) : list WarningDoc :=
  match l with
  | [] => [x]
  | y :: l' =>
      if w_timestamp y <? w_timestamp x then x :: l else y :: insert_descending x l'
  end.

Definition sort_descending (l : list WarningDoc) : list WarningDoc :=
  foldr insert_descending [] l.

(** [cursor.limit(n)]: zero means no limit. *)
Definition cursor_limit {A} (n : Z) (l : list A) : list A :=
  if n =? 0 then l else take (Z.abs_nat n) l.

Definition warnings_find_sorted (uid limit : Z) : M (list WarningDoc) :=
  db_roundtrip >>
  gets (fun w =>
    cursor_limit limit
      (sort_descending (filter (fun d => w_user_id d = uid) (warnings w)))).

(** [update_one(..., {"$set": ...}, upsert=True)] on [subscriptions]. *)
Definition subscriptions_upsert (uid : Z) (d : SubscriptionDoc) : M unit :=
  db_roundtrip >> modify (with_subscriptions (insert uid d)).

(** [find({"expiry_date": {"$lt": t}})], projected on [user_id]. *)
Definition subscriptions_find_expired (t : datetime) : M (list Z) :=
  db_roundtrip >>
  gets (fun w =>
    (filter (fun kv => expiry_date (snd kv) < t) (map_to_list (subscriptions w))).*1).

Definition subscriptions_delete_one (uid : Z) : M unit :=
  db_roundtrip >> modify (with_subscriptions (base.delete uid)).

(** ** [DatabaseManager] *)

Definition get_user (uid : Z) : M (option UserDoc) :=
  try_except
    (users_find_one uid)
    except_PyMongoError
    (fun _ => logger_error "get_user" >> ret None).

Definition create_user (uid : Z) (uname first last : string) : M unit :=
  try_except
    (let* now := datetime_utcnow in
     let user_data := mkUserDoc uid uname first last now 0 false false None None None in
     users_insert_one user_data)
    except_PyMongoError
    (fun _ => logger_error "create_user").

Definition update_user_warning (uid : Z) (increment : bool) : M bool :=
  try_except
    (let* now := datetime_utcnow in
     let update_op d :=
       let d' := inc_warning_count (if increment then 1 else -1) d in
       if increment then set_last_warning now d' else d' in
     let* modified_count := users_update_one uid update_op in
     ret (0 <? modified_count))
    except_PyMongoError
    (fun _ => logger_error "update_user_warning" >> ret false).

Definition reset_user_warnings (uid : Z) : M unit :=
  try_except
    (users_update_one uid (set_warning_count 0) >> ret tt)
    except_PyMongoError
    (fun _ => logger_error "reset_user_warnings").

Definition set_user_muted (uid : Z) (muted : bool) : M unit :=
  try_except
    (users_update_one uid (set_is_muted muted) >> ret tt)
    except_PyMongoError
    (fun _ => logger_error "set_user_muted").

Definition set_user_banned (uid : Z) (banned : bool) : M unit :=
  try_except
    (users_update_one uid (set_is_banned banned) >> ret tt)
    except_PyMongoError
    (fun _ => logger_error "set_user_banned").

Definition add_warning (uid : Z) (reason : string) (admin_id : Z) : M unit :=
  try_except
    (let* now := datetime_utcnow in
     let warning := mkWarningDoc uid reason admin_id now false in
     warnings_insert_one warning)
    except_PyMongoError
    (fun _ => logger_error "add_warning").

Definition get_user_warnings (uid limit : Z) : M (list WarningDoc) :=
  try_except
    (warnings_find_sorted uid limit)
    except_PyMongoError
    (fun _ => logger_error "get_user_warnings" >> ret []).

Definition add_subscription (uid days : Z) : M unit :=
  try_except
    (let* now := datetime_utcnow in
     let* delta := timedelta_of_days days in
     let* expiry := datetime_add now delta in
     let* now' := datetime_utcnow in
     subscriptions_upsert uid (mkSubscriptionDoc expiry now') >>
     users_update_one uid (set_subscription_expiry (Some expiry)) >>
     ret tt)
    except_PyMongoError
    (fun _ => logger_error "add_subscription").

Definition get_expired_subscriptions : M (list Z) :=
  try_except
    (let* now := datetime_utcnow in
     subscriptions_find_expired now)
    except_PyMongoError
    (fun _ => logger_error "get_expired_subscriptions" >> ret []).

Definition remove_subscription (uid : Z) : M unit :=
  try_except
    (subscriptions_delete_one uid >>
     users_update_one uid (set_subscription_expiry None) >>
     ret tt)
    except_PyMongoError
    (fun _ => logger_error "remove_subscription").

(** ** Strings, as the classifier uses them

    Texts are held in their UTF-8 encoding, on which [t in s] is the search
    for a run of bytes. *)

Fixpoint startswith (s t : string) {struct t} : bool :=
  match t, s with
  | EmptyString, _ => true
  | String a t', String b s' => Ascii.eqb a b && startswith s' t'
  | String _ _, EmptyString => false
  end.

(** [t in s] on strings. *)
Fixpoint str_in (t s : string) : bool :=
  startswith s t ||
  match s with
  | EmptyString => false
  | String _ s' => str_in t s'
  end.

(** [x or y] on optional strings: [None] and the empty string are falsy. *)
Definition str_or (x y : option string) : option string :=
  match x with
  | Some (String _ _) => x
  | _ => y
  end.

Definition str_or_default (x : option string) (dflt : string) : string :=
  match x with
  | Some (String c s) => String c s
  | _ => dflt
  end.

(** [x or y] on sequences: the empty one is falsy. *)
Definition seq_or {A} (x y : list A) : list A :=
  match x with
  | [] => y
  | _ :: _ => x
  end.

Definition truthy {A} (x : option A) : bool :=
  match x with Some _ => true | None => false end.

(** ** [PremiumModerationBot] *)

(** The handler context: the command arguments and the bot's own id. *)
Record Context := mkContext {
  args : list string;
  bot_id : Z
}.

(** [Update.effective_user] and [Update.effective_chat] are read off the
    message the update holds; the mock message has neither attribute. *)
Definition effective_user (update : Update) : M (option User) :=
  match message update with
  | None => ret None
  | Some (TgMessage m) => ret (from_user m)
  | Some MockMessage => raise AttributeError
  end.

Definition effective_chat (update : Update) : M (option Chat) :=
  match message update with
  | None => ret None
  | Some (TgMessage m) => ret (Some (chat m))
  | Some MockMessage => raise AttributeError
  end.

(** Attribute access [o.f]: on [None] it raises [AttributeError]. *)
Definition attr {A B} (o : option A) (f : A -> B) : M B :=
  match o with
  | Some a => ret (f a)
  | None => raise AttributeError
  end.

(** [await update.message.reply_text(text)]. *)
Definition message_reply_text (update : Update) (t : Text) : M unit :=
  match message update with
  | Some (TgMessage _) => tg_call (reply_text t)
  | _ => raise AttributeError
  end.

(** [await update.message.delete()]; the mock's [delete] returns [None],
    which cannot be awaited. *)
Definition message_delete (update : Update) : M unit :=
  match message update with
  | Some (TgMessage m) => tg_call (delete (message_id m))
  | Some MockMessage => raise TypeError
  | None => raise AttributeError
  end.

Fixpoint for_each {A} (l : list A) (body : A -> M unit) : M unit :=
  match l with
  | [] => ret tt
  | x :: l' => body x >> for_each l' body
  end.

Definition suspicious_terms : list string :=
  ["leak"; "pirate"; "unauthorized"; "share"; "free"; "download"].

Definition is_link (e : EntityType) : bool :=
  match e with
  | url | text_link => true
  | _ => false
  end.

Section Bot.

(** The configured administrator. *)
Variable ADMIN_ID : Z.

(** Two built-ins of Python the handlers call, taken as they are:
    [str.lower()], which lowers every cased character of Unicode, and
    [int(s)] on a string, whose value is [None] here when the call raises
    [ValueError]. *)
Variable str_lower : string -> string.
Variable int_of_str : string -> option Z.

Definition py_int (s : string) : M Z :=
  match int_of_str s with
  | Some z => ret z
  | None => raise ValueError
  end.

(** [message.forward_date or message.forward_from or
    message.forward_from_chat]: a [Message] has none of the three
    attributes, so reading the first one raises [AttributeError]. *)
Definition message_forward_markers (message : Message) : M bool :=
  raise AttributeError.

(** [ChatPermissions(can_send_messages=False, can_send_media_messages=False,
    can_send_other_messages=False, can_add_web_page_previews=False)]: the
    constructor has no parameter [can_send_media_messages], so the call
    raises [TypeError]. *)
Definition ChatPermissions_muted : M unit :=
  raise TypeError.

Definition start (update : Update) : M unit :=
  let* user := effective_user update in
  let* uid := attr user id in
  if negb (uid =? ADMIN_ID) then message_reply_text update AdminsOnly
  else message_reply_text update BotActive.

Definition notify_admin (t : Text) : M unit :=
  try_except
    (tg_call (send_message ADMIN_ID t))
    except_Exception
    (fun _ => logger_error "notify_admin").

Definition send_reminder : M unit :=
  let* g := gets group_id in
  match g with
  | None => ret tt
  | Some gid =>
      if gid =? 0 then ret tt else
      try_except
        (tg_call (send_message gid ReminderMsg))
        except_Exception
        (fun _ => logger_error "send_reminder")
  end.

(** Lines 435-440 of [handle_violation]: delete the violating message,
    best effort. *)
Definition delete_violating_message (update : Update) (delete_message : bool) : M unit :=
  if delete_message then
    try_except (message_delete update) except_Exception
      (fun _ => logger_error "delete_message")
  else ret tt.

(** Lines 446-526 of [handle_violation]: the chain of branches on the new
    count.  Its value is the local variable [action], which stays unbound
    when no branch is taken.  The source reads two clocks, [datetime.now()]
    for the end of the mute and [datetime.utcnow()] elsewhere; the model
    has one. *)
Definition determine_action (user : option User) (chat : option Chat) (uid : Z)
    (reason : string) (new_warning_count : Z) : M (option Action) :=
  if new_warning_count =? 1 then
    (* First warning *)
    let* first := attr user tg_first_name in
    let* cid := attr chat chat_id in
    tg_call (send_message cid (WarningMsg new_warning_count first reason)) >>
    ret (Some WARNING)
  else if new_warning_count =? 2 then
    (* Second warning - mute for 24 hours *)
    let* now := datetime_utcnow in
    let* until_date := datetime_add now (timedelta_hours MUTE_DURATION) in
    try_except
      (let* cid := attr chat chat_id in
       ChatPermissions_muted >>
       tg_call (restrict_member cid uid until_date) >>
       let* first := attr user tg_first_name in
       tg_call (send_message cid (MuteMsg first reason new_warning_count)) >>
       set_user_muted uid true >>
       ret (Some MUTE))
      except_Exception
      (fun _ => logger_error "mute" >> ret (Some MUTE_FAILED))
  else if 3 <=? new_warning_count then
    (* Third warning - ban *)
    try_except
      (let* cid := attr chat chat_id in
       tg_call (ban_member cid uid) >>
       let* first := attr user tg_first_name in
       tg_call (send_message cid (BanMsg first reason new_warning_count)) >>
       set_user_banned uid true >>
       ret (Some BAN))
      except_Exception
      (fun _ => logger_error "ban" >> ret (Some BAN_FAILED))
  else ret None.

Definition handle_violation (update : Update) (reason : string)
    (delete_message : bool) : M unit :=
  let* user := effective_user update in
  let* chat := effective_chat update in
  (* Get user data *)
  let* uid := attr user id in
  let* user_data := get_user uid in
  let current_warnings :=
    match user_data with
    | Some d => warning_count d
    | None => 0
    end in
  let new_warning_count := current_warnings + 1 in
  (* Delete violating message *)
  delete_violating_message update delete_message >>
  (* Record warning in database *)
  add_warning uid reason ADMIN_ID >>
  update_user_warning uid true >>
  (* Determine action based on warning count *)
  let* action := determine_action user chat uid reason new_warning_count in
  (* Notify admin *)
  let* first := attr user tg_first_name in
  let* uname := attr user (fun u => str_or_default (tg_username u) "N/A") in
  let* action :=
    match action with
    | Some a => ret a
    | None => raise UnboundLocalError
    end in
  let* now := datetime_utcnow in
  notify_admin (ViolationAlert first uname uid reason new_warning_count action now).

Definition welcome_new_member (update : Update) (context : Context) : M unit :=
  let* new_members :=
    match message update with
    | Some (TgMessage m) => ret (new_chat_members m)
    | _ => raise AttributeError
    end in
  for_each new_members (fun member =>
    if id member =? bot_id context then
      let* chat := effective_chat update in
      let* cid := attr chat chat_id in
      modify (with_group_id (Some cid)) >>
      message_reply_text update BotActivated
    else if is_bot member then ret tt
    else
      create_user (id member) (str_or_default (tg_username member) "")
        (tg_first_name member) (str_or_default (tg_last_name member) "") >>
      message_reply_text update (WelcomeMsg (tg_first_name member)) >>
      let* now := datetime_utcnow in
      notify_admin
        (NewMemberAlert (tg_first_name member)
           (str_or_default (tg_last_name member) "")
           (str_or_default (tg_username member) "N/A") (id member) now)).

Definition handle_message (update : Update) : M unit :=
  match message update with
  | None => ret tt
  | Some msg =>
      let* chat := effective_chat update in
      if negb (truthy chat) then ret tt else
      let* user := effective_user update in
      (* Skip if from admin *)
      let* uid := attr user id in
      if uid =? ADMIN_ID then ret tt else
      let* message :=
        match msg with
        | TgMessage m => ret m
        | MockMessage => raise AttributeError
        end in
      (* Check for forwarded messages *)
      let* forwarded := message_forward_markers message in
      if forwarded then
        handle_violation update "Forwarded message" true
      else
      (* Check for external links *)
      if existsb is_link (seq_or (entities message) (caption_entities message)) then
        handle_violation update "External link" true
      else
      (* Check for suspicious content *)
      let text := str_or_default (str_or (text message) (caption message)) "" in
      if existsb (fun term => str_in term (str_lower text)) suspicious_terms then
        handle_violation update "Suspicious content" true
      else ret tt
  end.

(** Lines 584-612: the body of the loop of [check_expired_subscriptions]. *)
Definition remove_expired_user (gid uid : Z) : M unit :=
  try_except
    ((* Get user info *)
     let* user_data := get_user uid in
     match user_data with
     | None => ret tt
     | Some d =>
         (* Remove from group *)
         tg_call (ban_member gid uid) >>
         (* Clean up database *)
         remove_subscription uid >>
         set_user_banned uid true >>
         (* Notify admin *)
         notify_admin (ExpiredAlert uid (first_name d))
     end)
    except_Exception
    (fun _ => logger_error "check_expired_subscriptions").

Definition check_expired_subscriptions : M unit :=
  let* g := gets group_id in
  match g with
  | None => ret tt
  | Some gid =>
      if gid =? 0 then ret tt else
      let* expired_users := get_expired_subscriptions in
      for_each expired_users (remove_expired_user gid)
  end.

Definition admin_warn (update : Update) (context : Context) : M unit :=
  let* user := effective_user update in
  let* uid := attr user id in
  if negb (uid =? ADMIN_ID) then ret tt else
  if (length (args context) <? 2)%nat then
    message_reply_text update WarnUsage
  else
    try_except
      (let* warned := py_int (nth 0 (args context) "") in
       let reason := String.concat " " (tail (args context)) in
       (* Create mock update for violation handling *)
       let mock_update := mkUpdate (update_id update) (Some MockMessage) in
       handle_violation mock_update ("Admin manual: " ++ reason) false >>
       message_reply_text update (WarningIssued warned))
      except_Exception
      (fun e =>
         if except_ValueError e then message_reply_text update InvalidUserId
         else logger_error "admin_warn" >>
              message_reply_text update ErrorIssuingWarning).

End Bot.

(** ** Observations used in the statements *)

(** The sanction tiers, and the tier handler a transport call belongs to:
    the warning notice is sent by the first branch only, the removal is
    requested by the third only; the restriction belongs to the second,
    which raises before it comes to request it. *)
Inductive Tier := TierWarning | TierMute | TierBan.

Definition tier_of_call (c : Call * bool) : option Tier :=
  match fst c with
  | send_message _ (WarningMsg _ _ _) => Some TierWarning
  | restrict_member _ _ _ => Some TierMute
  | ban_member _ _ => Some TierBan
  | _ => None
  end.

(** The transport calls attempted between two worlds of one run. *)
Definition new_calls (w w' : World) : list (Call * bool) :=
  drop (length (trace w)) (trace w').

Definition tiers_dispatched (w w' : World) : list Tier :=
  omap tier_of_call (new_calls w w').

(** The count [handle_violation] reads for [uid] in [w]. *)
Definition current_warnings (uid : Z) (w : World) : Z :=
  match fst (get_user uid w) with
  | Ok (Some d) => warning_count d
  | _ => 0
  end.

Definition with_utcnow (t : datetime) (w : World) : World :=
  mkWorld (users w) (warnings w) (subscriptions w) t (group_id w)
    (db_faults w) (tg_faults w) (trace w) (errors w).

(** The tier of which the sanction tag assigned to [action] speaks, and
    the tiers named by the alerts to the administrator among some transport
    calls. *)
Definition tier_of_action (a : Action) : Tier :=
  match a with
  | WARNING => TierWarning
  | MUTE | MUTE_FAILED => TierMute
  | BAN | BAN_FAILED => TierBan
  end.

Definition alert_tier (c : Call * bool) : option Tier :=
  match fst c with
  | send_message _ (ViolationAlert _ _ _ _ _ action _) => Some (tier_of_action action)
  | _ => None
  end.

Definition alert_tiers (w w' : World) : list Tier :=
  omap alert_tier (new_calls w w').

(** The end of a mute starting now is a [datetime]. *)
Definition mute_end_in_range (w : World) : Prop :=
  DATETIME_MIN ≤ utcnow w + timedelta_hours MUTE_DURATION ≤ DATETIME_MAX.

(** The tier handlers' transport calls that a new count calls for. *)
Definition tiers_of_count (new_warning_count : Z) : list Tier :=
  if new_warning_count =? 1 then [TierWarning]
  else if new_warning_count =? 2 then []
  else if 3 <=? new_warning_count then [TierBan]
  else [].

(** The outcome of the branch chain: which results are possible at which
    count. *)
Definition action_fits (new_warning_count : Z) (r : result (option Action)) : Prop :=
  if new_warning_count =? 1 then r = Ok (Some WARNING) ∨ r = Raise TelegramError
  else if new_warning_count =? 2 then r = Ok (Some MUTE_FAILED) ∨ r = Raise OverflowError
  else if 3 <=? new_warning_count then r = Ok (Some BAN) ∨ r = Ok (Some BAN_FAILED)
  else r = Ok None.

(** The outcome of the sweep for one user id, between the worlds before
    and after, [l] being the transport calls in between: a user without a
    record is left alone; for a user with a record either the removal went
    through, and then the subscription is gone, the user is marked banned
    and the notification follows the removal at once, or it failed, and
    then nothing of the user is touched. *)
Definition sweep_outcome (ADMIN_ID gid uid : Z) (w w' : World)
    (l : list (Call * bool)) : Prop :=
  match users w !! uid with
  | None =>
      users w' !! uid = None ∧ subscriptions w' !! uid = subscriptions w !! uid
  | Some d =>
      ∃ ok : bool,
        if ok then
          subscriptions w' !! uid = None ∧
          users w' !! uid = Some (set_is_banned true (set_subscription_expiry None d)) ∧
          ∃ pre ok' post,
            l = (pre ++ [(ban_member gid uid, true);
                         (send_message ADMIN_ID (ExpiredAlert uid (first_name d)), ok')]
                     ++ post)%list
        else
          subscriptions w' !! uid = subscriptions w !! uid ∧
          users w' !! uid = Some d ∧
          (ban_member gid uid, false) ∈ l
  end.

(** ** The Record Store operations as a whole *)

(** The operations [DatabaseManager] offers, the Python value each
    returns, and the value the failure policy prescribes. *)
Inductive StoreOp :=
  | GetUser (uid : Z)
  | CreateUser (uid : Z) (uname first last : string)
  | UpdateUserWarning (uid : Z) (increment : bool)
  | ResetUserWarnings (uid : Z)
  | SetUserMuted (uid : Z) (muted : bool)
  | SetUserBanned (uid : Z) (banned : bool)
  | AddWarning (uid : Z) (reason : string) (admin_id : Z)
  | GetUserWarnings (uid limit : Z)
  | AddSubscription (uid days : Z)
  | GetExpiredSubscriptions
  | RemoveSubscription (uid : Z).

Inductive Value :=
  | PyNone
  | PyUser (d : UserDoc)
  | PyBool (b : bool)
  | PyWarnings (l : list WarningDoc)
  | PyIds (l : list Z).

Definition exec (op : StoreOp) : M Value :=
  match op with
  | GetUser uid =>
      let* r := get_user uid in
      ret (match r with Some d => PyUser d | None => PyNone end)
  | CreateUser uid uname first last => create_user uid uname first last >> ret PyNone
  | UpdateUserWarning uid increment =>
      let* b := update_user_warning uid increment in ret (PyBool b)
  | ResetUserWarnings uid => reset_user_warnings uid >> ret PyNone
  | SetUserMuted uid muted => set_user_muted uid muted >> ret PyNone
  | SetUserBanned uid banned => set_user_banned uid banned >> ret PyNone
  | AddWarning uid reason admin_id => add_warning uid reason admin_id >> ret PyNone
  | GetUserWarnings uid limit =>
      let* l := get_user_warnings uid limit in ret (PyWarnings l)
  | AddSubscription uid days => add_subscription uid days >> ret PyNone
  | GetExpiredSubscriptions =>
      let* l := get_expired_subscriptions in ret (PyIds l)
  | RemoveSubscription uid => remove_subscription uid >> ret PyNone
  end.

Definition safe_default (op : StoreOp) : Value :=
  match op with
  | GetUserWarnings _ _ => PyWarnings []
  | GetExpiredSubscriptions => PyIds []
  | UpdateUserWarning _ _ => PyBool false
  | _ => PyNone
  end.

(** The method whose [except] clause logs. *)
Definition method_name (op : StoreOp) : string :=
  match op with
  | GetUser _ => "get_user"
  | CreateUser _ _ _ _ => "create_user"
  | UpdateUserWarning _ _ => "update_user_warning"
  | ResetUserWarnings _ => "reset_user_warnings"
  | SetUserMuted _ _ => "set_user_muted"
  | SetUserBanned _ _ => "set_user_banned"
  | AddWarning _ _ _ => "add_warning"
  | GetUserWarnings _ _ => "get_user_warnings"
  | AddSubscription _ _ => "add_subscription"
  | GetExpiredSubscriptions => "get_expired_subscriptions"
  | RemoveSubscription _ => "remove_subscription"
  end.

(** The duration [days] can be added to the clock of [w]: it is a
    [timedelta], and the sum is a [datetime]. *)
Definition valid_duration (w : World) (days : Z) : Prop :=
  Z.abs days ≤ TIMEDELTA_MAX_DAYS ∧
  DATETIME_MIN ≤ utcnow w + timedelta_days days ≤ DATETIME_MAX.

(** A run from [w] to [w'] ended on a failure of the store: it used up the
    schedule of the database up to and including a call that raises, the
    calls before it having gone through. *)
Definition store_failed (w w' : World) : Prop :=
  ∃ pre fs, db_faults w = (pre ++ true :: fs)%list ∧
            Forall (λ b, b = false) pre ∧ db_faults w' = fs.

(** The operations that call the store twice, and the condition under
    which an operation comes to call the store at all. *)
Definition two_store_calls (op : StoreOp) : bool :=
  match op with
  | AddSubscription _ _ | RemoveSubscription _ => true
  | _ => false
  end.

Definition reaches_store (w : World) (op : StoreOp) : Prop :=
  match op with
  | AddSubscription _ days => valid_duration w days
  | _ => True
  end.

(** ** Frames *)

(** [db_only w w'] says that [w'] differs from [w] at most in the
    collections, the database schedule and the error log. *)
Definition db_only (w w' : World) : Prop :=
  trace w' = trace w ∧ tg_faults w' = tg_faults w ∧
  utcnow w' = utcnow w ∧ group_id w' = group_id w.

(** [tg_only w w'] says that [w'] differs from [w] at most in the
    transport schedule, the recorded calls and the error log. *)
Definition tg_only (w w' : World) : Prop :=
  users w' = users w ∧ warnings w' = warnings w ∧
  subscriptions w' = subscriptions w ∧ utcnow w' = utcnow w ∧
  group_id w' = group_id w ∧ db_faults w' = db_faults w.

(** The stored count of a user is the same in two collections. *)
Definition same_count (uid : Z) (us us' : gmap Z UserDoc) : Prop :=
  ∀ d, us !! uid = Some d → ∃ d', us' !! uid = Some d' ∧ warning_count d' = warning_count d.

(** ** [DatabaseManager.connect]

    The connection is made before any collection exists, so the retry loop
    has a world of its own: the outcomes of the attempts still to come (an
    attempt is the construction of the client followed by the ping; an
    exhausted schedule means the attempt goes through), the number of
    attempts made and the number of errors logged. *)
Inductive ConnectExn := ConnectionFailure | OtherDriverError.

Inductive Attempt := AttemptOk | AttemptRaises (e : ConnectExn).

Record ConnectWorld := mkConnectWorld {
  attempts_to_come : list Attempt;
  attempts_made : nat;
  connect_errors_logged : nat
}.

(** How [connect] ends: it returns with the database handle set, it
    runs off the end of the loop with no handle set, or an exception
    leaves it. *)
Inductive ConnectEnd := Connected | NotConnected | ConnectRaises (e : ConnectExn).

Definition max_retries : nat := 3.

(** One pass through the body of the [for] loop, for the value [attempt]
    of the loop variable; [None] means the loop goes on.  The
    [asyncio.sleep] of the source is not awaited, so it does nothing. *)
Definition connect_attempt (attempt : nat) (cw : ConnectWorld)
    : option ConnectEnd * ConnectWorld :=
  let outcome :=
    match attempts_to_come cw with
    | [] => AttemptOk
    | o :: _ => o
    end in
  let cw' := mkConnectWorld (tail (attempts_to_come cw)) (S (attempts_made cw))
               (connect_errors_logged cw) in
  match outcome with
  | AttemptOk => (Some Connected, cw')
  | AttemptRaises ConnectionFailure =>
      let cw'' := mkConnectWorld (attempts_to_come cw') (attempts_made cw')
                    (S (connect_errors_logged cw')) in
      if (attempt =? max_retries - 1)%nat
      then (Some (ConnectRaises ConnectionFailure), cw'')
      else (None, cw'')
  | AttemptRaises OtherDriverError => (Some (ConnectRaises OtherDriverError), cw')
  end.

Fixpoint connect_loop (range : list nat) (cw : ConnectWorld) : ConnectEnd * ConnectWorld :=
  match range with
  | [] => (NotConnected, cw)
  | attempt :: range' =>
      match connect_attempt attempt cw with
      | (Some e, cw') => (e, cw')
      | (None, cw') => connect_loop range' cw'
      end
  end.

Definition connect (cw : ConnectWorld) : ConnectEnd * ConnectWorld :=
  connect_loop (seq 0 max_retries) cw.

(** ** Sample configuration *)

(** A sample configuration: administrator 99, group -5, one registered
    member 7 with no warnings. *)
Definition member7 : User := mkUser 7 None "Ann" None false.
Definition member7_doc : UserDoc :=
  mkUserDoc 7 "" "Ann" "" 0 0 false false None None None.
Definition world0 : World :=
  mkWorld {[ 7 := member7_doc ]} [] ∅ 1000 (Some (-5)) [] [] [] [].
Definition free_offer : Message :=
  mkMessage 1 (Some member7) (mkChat (-5)) [] []
    (Some "Get it for FREE") None [].
Definition free_offer_update : Update := mkUpdate 1 (Some (TgMessage free_offer)).

Definition stranger : User := mkUser 8 None "Bob" None false.
Definition stranger_update : Update :=
  mkUpdate 2 (Some (TgMessage
    (mkMessage 2 (Some stranger) (mkChat (-5)) [] [] (Some "hi") None []))).

Definition admin99 : User := mkUser 99 None "Root" None false.
Definition warn_command : Update :=
  mkUpdate 3 (Some (TgMessage
    (mkMessage 3 (Some admin99) (mkChat 99) [] []
       (Some "/warn 7 spamming the group") None []))).
Definition warn_args : Context := mkContext ["7"; "spamming"; "the"; "group"] 1.

(** What [int] makes of the two strings the examples pass to it:
    [int("7")] is 7 and [int("seven")] raises [ValueError]. *)
Definition int_on_examples (s : string) : option Z :=
  if String.eqb s "7" then Some 7 else None.

Definition lapsed_member_world : World :=
  with_utcnow 200000 (snd (add_subscription 7 1 world0)).

Definition lapsed_stranger_world : World :=
  with_utcnow 200000 (snd (add_subscription 8 1 world0)).

(** ** Definitions for the further properties *)

Definition warned_world : World :=
  with_warnings (λ _, [mkWarningDoc 7 "a" 99 10 false; mkWarningDoc 8 "b" 99 40 false;
                       mkWarningDoc 7 "c" 99 30 false; mkWarningDoc 7 "d" 99 20 false])
    world0.

(** The transport calls of each tier handler when all go through. *)
Definition tier_calls (cid uid : Z) (first reason : string) (n : Z)
    : list (Call * bool) :=
  if n =? 1 then [(send_message cid (WarningMsg n first reason), true)]
  else if n =? 2 then []
  else
    [(ban_member cid uid, true); (send_message cid (BanMsg first reason n), true)].

Definition warned_once_world : World :=
  snd (handle_violation 99 free_offer_update "Suspicious content" true world0).

Definition warned_twice_world : World :=
  snd (handle_violation 99 free_offer_update "Suspicious content" true warned_once_world).

(** [preserves R m]: whatever the outcome, a run of [m] leaves the world
    related by [R] to the one it started from.  For a reflexive and
    transitive [R] this goes through sequencing, exception handling and
    loops, so it is enough to check the single steps. *)
Definition preserves {A} (R : relation World) (m : M A) : Prop :=
  ∀ w, R w (snd (m w)).

(** The handlers the application registers, with what each is run on. *)
Inductive Handler :=
  | OnStart (update : Update)
  | OnNewMembers (update : Update) (context : Context)
  | OnMessage (update : Update)
  | OnWarn (update : Update) (context : Context)
  | OnReminder
  | OnDailySweep.

Definition run_handler (ADMIN_ID : Z) (str_lower : string → string)
    (int_of_str : string → option Z) (h : Handler) : M unit :=
  match h with
  | OnStart update => start ADMIN_ID update
  | OnNewMembers update context => welcome_new_member ADMIN_ID update context
  | OnMessage update => handle_message ADMIN_ID str_lower update
  | OnWarn update context => admin_warn ADMIN_ID int_of_str update context
  | OnReminder => send_reminder
  | OnDailySweep => check_expired_subscriptions ADMIN_ID
  end.

(** The worlds after running handlers one after the other, whatever each
    run's outcome. *)
Fixpoint run_handlers (ADMIN_ID : Z) (str_lower : string → string)
    (int_of_str : string → option Z) (hs : list Handler) (w : World) : World :=
  match hs with
  | [] => w
  | h :: hs' =>
      run_handlers ADMIN_ID str_lower int_of_str hs'
        (snd (run_handler ADMIN_ID str_lower int_of_str h w))
  end.

(** A record that keeps its identity, whose count has not gone down and
    whose mute and ban flags, once set, are still set. *)
Definition record_grows (d d' : UserDoc) : Prop :=
  user_id d' = user_id d ∧ username d' = username d ∧
  first_name d' = first_name d ∧ last_name d' = last_name d ∧
  join_date d' = join_date d ∧
  warning_count d ≤ warning_count d' ∧
  (is_muted d = true → is_muted d' = true) ∧
  (is_banned d = true → is_banned d' = true).

Definition never_undone (w w' : World) : Prop :=
  (∀ k d, users w !! k = Some d → ∃ d', users w' !! k = Some d' ∧ record_grows d d') ∧
  warnings w `prefix_of` warnings w'.

(** [only_user uid w w']: between the two worlds no subscription and no
    record of another user changed, the recorded group is the same, and no
    record was created for [uid]. *)
Definition only_user (uid : Z) (w w' : World) : Prop :=
  subscriptions w' = subscriptions w ∧ group_id w' = group_id w ∧
  (∀ k, k ≠ uid → users w' !! k = users w !! k) ∧
  (users w !! uid = None → users w' !! uid = None).

(** [counts_kept w w']: between the two worlds the warnings collection
    and the recorded group are the same and every user record is still
    there with the same warning count and mute flag. *)
Definition counts_kept (w w' : World) : Prop :=
  warnings w' = warnings w ∧ group_id w' = group_id w ∧
  ∀ k d, users w !! k = Some d →
         ∃ d', users w' !! k = Some d' ∧ warning_count d' = warning_count d ∧
               is_muted d' = is_muted d.

Definition two_subscribers_world : World :=
  with_utcnow 200000
    (snd (add_subscription 8 30
       (snd (create_user 8 "bob" "Bob" "" (snd (add_subscription 7 1 world0)))))).

Definition bot_user : User := mkUser 1 (Some "modbot") "ModBot" None true.
Definition bot_added_update : Update :=
  mkUpdate 5 (Some (TgMessage
    (mkMessage 5 (Some admin99) (mkChat (-77)) [] [] None None [bot_user]))).

Definition newcomer : User := mkUser 8 (Some "bob") "Bob" None false.
Definition newcomer_joins : Update :=
  mkUpdate 6 (Some (TgMessage
    (mkMessage 6 (Some newcomer) (mkChat (-5)) [] [] None None [newcomer]))).

(** The outcome of the [i]-th attempt still to come. *)
Definition attempt_outcome (cw : ConnectWorld) (i : nat) : Attempt :=
  nth i (attempts_to_come cw) AttemptOk.

(** ** Proof support: running the monad *)

Lemma bind_ok {A B} (m : M A) (k : A → M B) w a w' :
  m w = (Ok a, w') → bind m k w = k a w'.
Proof. unfold bind. by intros ->. Qed.

Ltac unfold_monad :=
  cbv [bind ret raise gets modify try_except attr logger_error datetime_utcnow
       except_PyMongoError except_Exception except_ValueError
       with_users with_warnings with_subscriptions with_group_id
       with_db_faults with_tg_faults with_trace with_errors with_utcnow];
  cbn [users warnings subscriptions utcnow group_id db_faults tg_faults
       trace errors fst snd].

Ltac unfold_db :=
  cbv [get_user create_user update_user_warning reset_user_warnings
       set_user_muted set_user_banned add_warning get_user_warnings
       add_subscription get_expired_subscriptions remove_subscription
       users_find_one users_insert_one users_update_one warnings_insert_one
       warnings_find_sorted subscriptions_upsert subscriptions_find_expired
       subscriptions_delete_one db_roundtrip];
  unfold_monad.

(** The three shapes of a fault schedule. *)
Ltac split_faults l := destruct l as [|[] ?]; unfold_monad.

(** What a transport call does, whatever the schedule. *)
Lemma tg_call_cases c w :
  ∃ (ok : bool) (fs : list bool),
    tg_call c w =
      (if ok then Ok tt else Raise TelegramError,
       with_trace (λ t, (t ++ [(c, ok)])%list) (with_tg_faults fs w)).
Proof.
  destruct w as [us ws ss now g dbf tgf tr er]. unfold tg_call. cbn [tg_faults].
  destruct tgf as [|[] fs].
  - by exists true, (@nil bool).
  - by exists false, fs.
  - by exists true, fs.
Qed.

(** ** Proof support: durations and dates *)

Lemma timedelta_of_days_ok days w :
  Z.abs days ≤ TIMEDELTA_MAX_DAYS →
  timedelta_of_days days w = (Ok (timedelta_days days), w).
Proof.
  intros H. unfold timedelta_of_days.
  by destruct (Z.leb_spec (Z.abs days) TIMEDELTA_MAX_DAYS); [|lia].
Qed.

Lemma datetime_add_ok t delta w :
  DATETIME_MIN ≤ t + delta ≤ DATETIME_MAX →
  datetime_add t delta w = (Ok (t + delta), w).
Proof.
  intros H. unfold datetime_add.
  destruct (Z.leb_spec DATETIME_MIN (t + delta)); [|lia].
  by destruct (Z.leb_spec (t + delta) DATETIME_MAX); [|lia].
Qed.

Lemma datetime_add_overflow t delta w :
  ¬ (DATETIME_MIN ≤ t + delta ≤ DATETIME_MAX) →
  datetime_add t delta w = (Raise OverflowError, w).
Proof.
  intros H. unfold datetime_add.
  destruct (Z.leb_spec DATETIME_MIN (t + delta)); [|done].
  by destruct (Z.leb_spec (t + delta) DATETIME_MAX); [lia|].
Qed.

Lemma valid_duration_dec w days : {valid_duration w days} + {¬ valid_duration w days}.
Proof.
  unfold valid_duration.
  destruct (Z_le_dec (Z.abs days) TIMEDELTA_MAX_DAYS);
    destruct (Z_le_dec DATETIME_MIN (utcnow w + timedelta_days days));
    destruct (Z_le_dec (utcnow w + timedelta_days days) DATETIME_MAX);
    (by left) || (right; lia).
Defined.

(** A duration that can be added leaves [add_subscription] to its two
    store calls; one that cannot makes it raise before the first. *)
Lemma add_subscription_valid uid days w :
  valid_duration w days →
  add_subscription uid days w
  = try_except
      (let expiry := utcnow w + timedelta_days days in
       subscriptions_upsert uid (mkSubscriptionDoc expiry (utcnow w)) >>
       users_update_one uid (set_subscription_expiry (Some expiry)) >>
       ret tt)
      except_PyMongoError
      (fun _ => logger_error "add_subscription") w.
Proof.
  intros [H1 H2]. unfold add_subscription, try_except, datetime_utcnow.
  unfold bind at 1. unfold gets at 1.
  unfold bind at 1. rewrite (timedelta_of_days_ok _ _ H1).
  unfold bind at 1. rewrite (datetime_add_ok _ _ _ H2).
  unfold bind at 1. unfold gets at 1. reflexivity.
Qed.

Lemma add_subscription_overflow uid days w :
  ¬ valid_duration w days →
  add_subscription uid days w = (Raise OverflowError, w).
Proof.
  intros H. unfold add_subscription, try_except, datetime_utcnow.
  unfold bind at 1. unfold gets at 1.
  unfold bind at 1. unfold timedelta_of_days.
  destruct (Z.leb_spec (Z.abs days) TIMEDELTA_MAX_DAYS) as [H1|H1]; [|reflexivity].
  unfold ret at 1. unfold bind at 1.
  rewrite datetime_add_overflow; [reflexivity|].
  intros H2. apply H. by split.
Qed.

(** ** Proof support: the database operations under any schedule *)

Lemma db_only_refl w : db_only w w.
Proof. by repeat split. Qed.

Lemma db_only_trans w1 w2 w3 : db_only w1 w2 → db_only w2 w3 → db_only w1 w3.
Proof. unfold db_only. intros (?&?&?&?) (?&?&?&?). repeat split; congruence. Qed.

Lemma get_user_frame uid w :
  ∃ r w', get_user uid w = (Ok r, w') ∧ db_only w w' ∧
    users w' = users w ∧ warnings w' = warnings w ∧
    subscriptions w' = subscriptions w ∧
    (r = None ∨ r = users w !! uid) ∧
    (db_faults w = [] → r = users w !! uid ∧ db_faults w' = []).
Proof.
  destruct w as [us ws ss now g dbf tgf tr er]. unfold_db.
  split_faults dbf; eexists _, _; (split; [reflexivity|]); unfold db_only; cbn; naive_solver.
Qed.

Lemma add_warning_frame uid reason a w :
  ∃ w', add_warning uid reason a w = (Ok tt, w') ∧ db_only w w' ∧
    users w' = users w ∧ subscriptions w' = subscriptions w ∧
    (warnings w' = warnings w ∨
     warnings w' = (warnings w ++ [mkWarningDoc uid reason a (utcnow w) false])%list) ∧
    (db_faults w = [] →
     warnings w' = (warnings w ++ [mkWarningDoc uid reason a (utcnow w) false])%list ∧
     db_faults w' = []).
Proof.
  destruct w as [us ws ss now g dbf tgf tr er]. unfold_db.
  split_faults dbf; eexists; (split; [reflexivity|]); unfold db_only; cbn; naive_solver.
Qed.

Lemma update_user_warning_frame uid w :
  ∃ b w', update_user_warning uid true w = (Ok b, w') ∧ db_only w w' ∧
    warnings w' = warnings w ∧ subscriptions w' = subscriptions w ∧
    (users w' = users w ∨
     users w' = alter (λ d, set_last_warning (utcnow w) (inc_warning_count 1 d)) uid (users w)) ∧
    (users w !! uid = None → b = false ∧ users w' = users w) ∧
    (db_faults w = [] →
     users w' = alter (λ d, set_last_warning (utcnow w) (inc_warning_count 1 d)) uid (users w) ∧
     db_faults w' = []).
Proof.
  destruct w as [us ws ss now g dbf tgf tr er]. unfold_db.
  split_faults dbf; try destruct (us !! uid) eqn:E;
    eexists _, _; (split; [reflexivity|]); unfold db_only; cbn;
    repeat split; auto; try discriminate; intros; by rewrite alter_id'.
Qed.

Lemma set_user_muted_frame uid b w :
  ∃ w', set_user_muted uid b w = (Ok tt, w') ∧ db_only w w' ∧
    warnings w' = warnings w ∧ subscriptions w' = subscriptions w ∧
    (users w' = users w ∨ users w' = alter (set_is_muted b) uid (users w)) ∧
    (db_faults w = [] → db_faults w' = []).
Proof.
  destruct w as [us ws ss now g dbf tgf tr er]. unfold_db.
  split_faults dbf; try destruct (us !! uid) eqn:E;
    eexists; (split; [reflexivity|]); unfold db_only; cbn;
    repeat split; auto; discriminate.
Qed.

Lemma set_user_banned_frame uid b w :
  ∃ w', set_user_banned uid b w = (Ok tt, w') ∧ db_only w w' ∧
    warnings w' = warnings w ∧ subscriptions w' = subscriptions w ∧
    (users w' = users w ∨ users w' = alter (set_is_banned b) uid (users w)) ∧
    (db_faults w = [] → db_faults w' = []).
Proof.
  destruct w as [us ws ss now g dbf tgf tr er]. unfold_db.
  split_faults dbf; try destruct (us !! uid) eqn:E;
    eexists; (split; [reflexivity|]); unfold db_only; cbn;
    repeat split; auto; discriminate.
Qed.

(** ** Proof support: symbolic execution *)

Ltac run :=
  cbv [bind try_except ret raise attr gets modify datetime_utcnow logger_error
       except_PyMongoError except_Exception except_ValueError];
  cbn [fst snd].

Ltac proj :=
  cbn [users warnings subscriptions utcnow group_id db_faults tg_faults trace errors
       with_users with_warnings with_subscriptions with_group_id
       with_db_faults with_tg_faults with_trace with_errors with_utcnow] in *.

(** Run the next transport call of the goal, on both outcomes. *)
Ltac step_tg :=
  match goal with
  | |- context [tg_call ?c ?w] =>
      let ok := fresh "ok" in
      let fs := fresh "fs" in
      let E := fresh "E" in
      destruct (tg_call_cases c w) as (ok & fs & E); rewrite E; clear E;
      destruct ok; cbn beta iota
  end.

(** Run the next database operation of the goal through its frame. *)
Ltac step_db :=
  let w' := fresh "w" in
  let E := fresh "E" in
  let D := fresh "D" in
  match goal with
  | |- context [get_user ?a ?w] =>
      let r := fresh "r" in
      destruct (get_user_frame a w) as (r & w' & E & D); rewrite ?E
  | |- context [add_warning ?a ?b ?c ?w] =>
      destruct (add_warning_frame a b c w) as (w' & E & D); rewrite E
  | |- context [update_user_warning ?a true ?w] =>
      let b := fresh "b" in
      destruct (update_user_warning_frame a w) as (b & w' & E & D); rewrite E
  | |- context [set_user_muted ?a ?b ?w] =>
      destruct (set_user_muted_frame a b w) as (w' & E & D); rewrite E
  | |- context [set_user_banned ?a ?b ?w] =>
      destruct (set_user_banned_frame a b w) as (w' & E & D); rewrite E
  end; clear E; cbn beta iota; proj.

Lemma determine_action_frame (u : User) (c : Chat) uid reason new_warning_count w :
  ∃ r w' l,
    determine_action (Some u) (Some c) uid reason new_warning_count w = (r, w') ∧
    trace w' = (trace w ++ l)%list ∧
    omap tier_of_call l = tiers_of_count new_warning_count ∧
    omap alert_tier l = [] ∧
    action_fits new_warning_count r ∧
    (new_warning_count = 2 → mute_end_in_range w → r = Ok (Some MUTE_FAILED)) ∧
    utcnow w' = utcnow w ∧ warnings w' = warnings w ∧
    (users w' = users w ∨
     (3 ≤ new_warning_count ∧ users w' = alter (set_is_banned true) uid (users w))) ∧
    (db_faults w = [] → db_faults w' = []).
Proof.
  unfold determine_action, tiers_of_count, action_fits.
  destruct (Z.eqb_spec new_warning_count 1) as [->|H1].
  { run. step_tg; eexists _, _, _; (split; [reflexivity|]); proj;
      do 3 (split; [reflexivity|]); naive_solver. }
  destruct (Z.eqb_spec new_warning_count 2) as [->|H2].
  { run. unfold mute_end_in_range.
    destruct (Z_le_dec DATETIME_MIN (utcnow w + timedelta_hours MUTE_DURATION));
      [destruct (Z_le_dec (utcnow w + timedelta_hours MUTE_DURATION) DATETIME_MAX)|].
    - rewrite datetime_add_ok by done. unfold ChatPermissions_muted. run.
      eexists _, _, []. rewrite app_nil_r. (split; [reflexivity|]); proj. naive_solver.
    - rewrite datetime_add_overflow by lia.
      eexists _, _, []. rewrite app_nil_r. (split; [reflexivity|]).
      do 3 (split; [done|]). split; [auto|]. split; [lia|]. naive_solver.
    - rewrite datetime_add_overflow by lia.
      eexists _, _, []. rewrite app_nil_r. (split; [reflexivity|]).
      do 3 (split; [done|]). split; [auto|]. split; [lia|]. naive_solver. }
  destruct (Z.leb_spec 3 new_warning_count) as [H3|H3].
  { run. step_tg; [step_tg; [step_db|]|];
      eexists _, _, _; (split; [reflexivity|]);
      unfold db_only in *; proj; destruct_and?;
      repeat match goal with H : _ = _ |- _ => rewrite H end;
      rewrite <- ?app_assoc; do 3 (split; [reflexivity|]); naive_solver. }
  run. eexists _, _, []. rewrite app_nil_r. naive_solver.
Qed.

Lemma delete_violating_message_frame update m del w :
  message update = Some (TgMessage m) →
  ∃ w' l, delete_violating_message update del w = (Ok tt, w') ∧ tg_only w w' ∧
    trace w' = (trace w ++ l)%list ∧ omap tier_of_call l = [] ∧ omap alert_tier l = [].
Proof.
  intros Hm. unfold delete_violating_message, message_delete. rewrite Hm.
  destruct del; run.
  - step_tg; eexists _, _; (split; [reflexivity|]); unfold tg_only; proj; by repeat split.
  - exists w, []. rewrite app_nil_r. by repeat split.
Qed.

Lemma notify_admin_frame ADMIN_ID t w :
  ∃ w' ok, notify_admin ADMIN_ID t w = (Ok tt, w') ∧ tg_only w w' ∧
    trace w' = (trace w ++ [(send_message ADMIN_ID t, ok)])%list.
Proof.
  unfold notify_admin. run.
  step_tg; eexists _, _; (split; [reflexivity|]); unfold tg_only; proj; by repeat split.
Qed.

Ltac step_block Hm :=
  let w' := fresh "w" in
  let E := fresh "E" in
  let D := fresh "D" in
  match goal with
  | |- context [delete_violating_message ?a ?b ?w] =>
      let l := fresh "l" in
      destruct (delete_violating_message_frame a _ b w Hm) as (w' & l & E & D); rewrite E
  | |- context [determine_action (Some ?u) (Some ?c) ?a ?b ?n ?w] =>
      let l := fresh "l" in
      let r := fresh "r" in
      destruct (determine_action_frame u c a b n w) as (r & w' & l & E & D); rewrite E
  end; clear E; cbn beta iota; proj.

Ltac step_notify :=
  let w' := fresh "w" in
  let E := fresh "E" in
  let D := fresh "D" in
  let ok := fresh "ok" in
  match goal with
  | |- context [notify_admin ?a ?t ?w] =>
      destruct (notify_admin_frame a t w) as (w' & ok & E & D); rewrite E
  end; clear E; cbn beta iota; proj.

Lemma same_count_flags uid (us us' : gmap Z UserDoc) Q :
  us' = us ∨ (Q ∧ us' = alter (set_is_banned true) uid us) →
  same_count uid us us' ∧ (us !! uid = None → us' = us).
Proof.
  intros [->|[_ ->]];
    (split; [intros d Hd; rewrite ?lookup_alter_eq, ?Hd; by eexists
            |intros; by rewrite ?alter_id']).
Qed.

(** Everything the later statements need to know about one run of
    [handle_violation] on a delivered message with a sender, under any
    outcome schedule. *)
Lemma handle_violation_frame ADMIN_ID update reason del m (u : User) w :
  message update = Some (TgMessage m) →
  from_user m = Some u →
  let new_warning_count := current_warnings (id u) w + 1 in
  let doc := mkWarningDoc (id u) reason ADMIN_ID (utcnow w) false in
  ∃ r w' l,
    handle_violation ADMIN_ID update reason del w = (r, w') ∧
    trace w' = (trace w ++ l)%list ∧
    omap tier_of_call l = tiers_of_count new_warning_count ∧
    utcnow w' = utcnow w ∧
    (warnings w' = warnings w ∨ warnings w' = (warnings w ++ [doc])%list) ∧
    (users w !! id u = None → users w' = users w) ∧
    (db_faults w = [] →
       db_faults w' = [] ∧
       warnings w' = (warnings w ++ [doc])%list ∧
       ∀ d, users w !! id u = Some d →
            ∃ d', users w' !! id u = Some d' ∧ warning_count d' = warning_count d + 1) ∧
    (2 ≤ new_warning_count →
     (new_warning_count = 2 → mute_end_in_range w) →
       r = Ok tt ∧
       ∃ l0 a ok,
         l = (l0 ++ [(send_message ADMIN_ID
                        (ViolationAlert (tg_first_name u)
                           (str_or_default (tg_username u) "N/A") (id u) reason
                           new_warning_count a (utcnow w)), ok)])%list ∧
         omap alert_tier l0 = [] ∧
         tier_of_action a = if new_warning_count =? 2 then TierMute else TierBan) ∧
    (new_warning_count = 1 →
       omap alert_tier l = if r is Ok _ then [TierWarning] else []).
Proof.
  intros Hm Hu new_warning_count doc. subst new_warning_count doc.
  unfold handle_violation, current_warnings, effective_user, effective_chat.
  rewrite Hm, Hu. run.
  step_db. destruct D as ((T0 & _ & C0 & _) & U0 & W0 & S0 & R0 & F0).
  cbn [fst].
  set (n := match r with Some d => warning_count d | None => 0 end + 1).
  step_block Hm. destruct D as ((U1 & W1 & _ & C1 & _ & F1) & T1 & L1 & A1).
  step_db. destruct D as ((T2 & _ & C2 & _) & U2 & S2 & W2 & F2).
  step_db. destruct D as ((T3 & _ & C3 & _) & W3 & S3 & U3 & N3 & F3).
  step_block Hm. destruct D as (T4 & L4 & B4 & A4 & M4 & C4 & W4 & U4 & F4).
  apply same_count_flags in U4 as [U4 N4].
  (* the world after the branch chain, related to the initial one *)
  assert (trace w4 = (trace w ++ (l ++ l0))%list) as T.
  { rewrite T4, T3, T2, T1, T0. by rewrite app_assoc. }
  assert (omap tier_of_call (l ++ l0)%list = tiers_of_count n) as L.
  { by rewrite omap_app, L1, L4. }
  assert (omap alert_tier (l ++ l0)%list = []) as B.
  { by rewrite omap_app, A1, B4. }
  assert (utcnow w4 = utcnow w) as C by congruence.
  assert (utcnow w1 = utcnow w) as C' by congruence.
  assert (utcnow w3 = utcnow w) as C'' by congruence.
  rewrite C' in W2, F2.
  assert (warnings w4 = warnings w ∨
          warnings w4 = (warnings w ++
            [mkWarningDoc (id u) reason ADMIN_ID (utcnow w) false])%list) as W.
  { rewrite W4, W3. destruct W2 as [-> | ->]; rewrite W1, W0; auto. }
  assert (users w !! id u = None → users w4 = users w) as N.
  { intros HN. rewrite <- U0, <- U1, <- U2 in HN |- *.
    destruct (N3 HN) as [_ E3]. rewrite <- E3 in HN |- *. auto. }
  assert (db_faults w = [] →
          db_faults w4 = [] ∧
          warnings w4 = (warnings w ++
            [mkWarningDoc (id u) reason ADMIN_ID (utcnow w) false])%list ∧
          ∀ d, users w !! id u = Some d →
               ∃ d', users w4 !! id u = Some d' ∧
                     warning_count d' = warning_count d + 1) as F.
  { intros HF. destruct (F0 HF) as [_ HF0]. rewrite <- F1 in HF0.
    destruct (F2 HF0) as [HW2 HF2]. destruct (F3 HF2) as [HU3 HF3].
    split; [auto|]. split; [by rewrite W4, W3, HW2, W1, W0|].
    intros d Hd. destruct (U4 (set_last_warning (utcnow w2) (inc_warning_count 1 d)))
      as (d' & Hd' & Hc).
    { rewrite HU3, lookup_alter_eq, U2, U1, U0, Hd. done. }
    exists d'. split; [done|]. rewrite Hc. done. }
  assert (n = 2 → mute_end_in_range w → r0 = Ok (Some MUTE_FAILED)) as M.
  { intros H2 HR. apply M4; [done|]. unfold mute_end_in_range in *. by rewrite C''. }
  unfold action_fits in A4.
  destruct r0 as [[a|]|e].
  - (* the branch chain bound [action] *)
    step_notify. destruct D as ((U5 & W5 & _ & C5 & _ & F5) & T5).
    exists (Ok tt), w5, ((l ++ l0) ++ [(send_message ADMIN_ID
      (ViolationAlert (tg_first_name u) (str_or_default (tg_username u) "N/A")
         (id u) reason n a (utcnow w4)), ok)])%list.
    split; [done|]. split; [by rewrite T5, T, <- app_assoc|].
    split; [by rewrite omap_app, L; cbn; rewrite app_nil_r|].
    split; [congruence|]. rewrite W5, U5, F5, C.
    split; [done|]. split; [done|]. split; [done|].
    split.
    + intros Hn _. split; [done|]. exists (l ++ l0)%list, a, ok.
      split; [done|]. split; [done|].
      destruct (Z.eqb_spec n 1); [lia|].
      destruct (Z.eqb_spec n 2); [naive_solver|].
      destruct (Z.leb_spec 3 n); [naive_solver|lia].
    + intros Hn. rewrite omap_app, B. rewrite Hn in A4. cbn in A4.
      destruct A4 as [[= ->]|[=]]. reflexivity.
  - (* [action] is unbound *)
    exists (Raise UnboundLocalError), w4, (l ++ l0)%list.
    do 6 (split; [done|]). split; [done|].
    split; [intros Hn _|intros Hn];
      destruct (Z.eqb_spec n 1); try lia; [| naive_solver];
      destruct (Z.eqb_spec n 2); [naive_solver|];
      destruct (Z.leb_spec 3 n); [naive_solver|lia].
  - (* the warning notice could not be sent, or the mute has no end *)
    exists (Raise e), w4, (l ++ l0)%list.
    do 6 (split; [done|]). split; [done|].
    split; [intros Hn HR|intros Hn; done].
    destruct (Z.eqb_spec n 1); [lia|].
    destruct (Z.eqb_spec n 2) as [E2|]; [by specialize (M E2 (HR E2))|].
    destruct (Z.leb_spec 3 n); [naive_solver|lia].
Qed.

Lemma new_calls_app w w' l :
  trace w' = (trace w ++ l)%list → new_calls w w' = l.
Proof. intros H. unfold new_calls. rewrite H. apply drop_app_length. Qed.

Lemma current_warnings_utcnow uid t w :
  current_warnings uid (with_utcnow t w) = current_warnings uid w.
Proof.
  destruct w as [us ws ss now g dbf tgf tr er]. unfold current_warnings.
  unfold_db. by split_faults dbf.
Qed.

Lemma current_warnings_absent uid w :
  users w !! uid = None → current_warnings uid w = 0.
Proof.
  destruct w as [us ws ss now g dbf tgf tr er]. unfold current_warnings.
  unfold_db. intros E. by split_faults dbf; rewrite ?E.
Qed.

Lemma handle_violation_tiers ADMIN_ID update reason del m (u : User) w :
  message update = Some (TgMessage m) →
  from_user m = Some u →
  tiers_dispatched w (snd (handle_violation ADMIN_ID update reason del w))
  = tiers_of_count (current_warnings (id u) w + 1).
Proof.
  intros Hm Hu.
  destruct (handle_violation_frame ADMIN_ID update reason del m u w Hm Hu)
    as (r & w' & l & E & T & L & _).
  rewrite E. cbn [snd]. unfold tiers_dispatched. by rewrite (new_calls_app _ _ _ T).
Qed.

(** ** The escalation tiers *)

(** C1. For every detected violation the tier is fixed by the new warning
    count alone, whatever the outcomes of the database and transport calls.
    The tier is read off the sanction tag of the alert sent to the
    administrator (WARNING for the warning tier, MUTE or MUTE_FAILED for
    the mute tier, BAN or BAN_FAILED for the ban tier): a new count of 1
    sends the warning notice and, when it ends normally, its alert names
    the warning tier; a new count of 2 ends normally (the end of the mute
    being a date) with one alert, naming the mute tier; a new count of 3
    or more (5 included) ends normally with one alert, naming the ban tier.
    The clock plays no part: neither the count read nor the tier handlers'
    calls depend on it, so no passage of time resets the tier. *)
Theorem tier_by_new_count ADMIN_ID update reason del m (u : User) w :
  message update = Some (TgMessage m) →
  from_user m = Some u →
  let new_warning_count := current_warnings (id u) w + 1 in
  let r := handle_violation ADMIN_ID update reason del w in
  let run w := tiers_dispatched w (snd (handle_violation ADMIN_ID update reason del w)) in
  (new_warning_count = 1 →
     run w = [TierWarning] ∧
     alert_tiers w (snd r) = if fst r is Ok _ then [TierWarning] else []) ∧
  (new_warning_count = 2 → mute_end_in_range w →
     fst r = Ok tt ∧ alert_tiers w (snd r) = [TierMute]) ∧
  (3 ≤ new_warning_count → fst r = Ok tt ∧ alert_tiers w (snd r) = [TierBan]) ∧
  (new_warning_count = 5 → fst r = Ok tt ∧ alert_tiers w (snd r) = [TierBan]) ∧
  (∀ t, current_warnings (id u) (with_utcnow t w) + 1 = new_warning_count ∧
        run (with_utcnow t w) = run w).
Proof.
  intros Hm Hu new_warning_count r run. subst r run. cbv beta.
  assert (∀ w, current_warnings (id u) w + 1 = new_warning_count →
               let r := handle_violation ADMIN_ID update reason del w in
               2 ≤ new_warning_count →
               (new_warning_count = 2 → mute_end_in_range w) →
               fst r = Ok tt ∧
               alert_tiers w (snd r)
               = [if new_warning_count =? 2 then TierMute else TierBan]) as H23.
  { intros w0 Hc r Hn HR. subst r.
    destruct (handle_violation_frame ADMIN_ID update reason del m u w0 Hm Hu)
      as (r & w' & l & E & T & _ & _ & _ & _ & _ & N & _).
    rewrite E. cbn [fst snd]. unfold alert_tiers. rewrite (new_calls_app _ _ _ T).
    rewrite Hc in N. destruct (N Hn HR) as (-> & l0 & a & ok & -> & A0 & Ha).
    split; [done|]. by rewrite omap_app, A0; cbn; rewrite Ha. }
  split; [|split; [|split; [|split]]].
  - intros H1. rewrite (handle_violation_tiers _ _ _ _ _ _ _ Hm Hu).
    fold new_warning_count. rewrite H1. split; [done|].
    destruct (handle_violation_frame ADMIN_ID update reason del m u w Hm Hu)
      as (r & w' & l & E & T & _ & _ & _ & _ & _ & _ & W1).
    rewrite E. cbn [fst snd]. unfold alert_tiers. rewrite (new_calls_app _ _ _ T).
    by apply W1.
  - intros H2 HR. destruct (H23 w eq_refl) as [-> ->]; [lia|done|].
    by rewrite H2.
  - intros H3. destruct (H23 w eq_refl) as [-> ->]; [lia|lia|].
    by destruct (Z.eqb_spec new_warning_count 2); [lia|].
  - intros H5. destruct (H23 w eq_refl) as [-> ->]; [lia|lia|].
    by rewrite H5.
  - intros t. split; [by rewrite current_warnings_utcnow|].
    rewrite !(handle_violation_tiers _ _ _ _ _ _ _ Hm Hu).
    by rewrite current_warnings_utcnow.
Qed.

Lemma tier_by_new_count_witness :
  let w := snd (handle_violation 99 free_offer_update "Suspicious content" true world0) in
  let r := handle_violation 99 free_offer_update "Suspicious content" true w in
  current_warnings 7 w + 1 = 2 ∧ mute_end_in_range w ∧
  fst r = Ok tt ∧ alert_tiers w (snd r) = [TierMute].
Proof.
  split; [reflexivity|]. split; [by vm_compute|].
  apply (tier_by_new_count 99 free_offer_update "Suspicious content" true free_offer member7
           (snd (handle_violation 99 free_offer_update "Suspicious content" true world0))
           eq_refl eq_refl); [reflexivity|by vm_compute].
Defined.

(** ** Persistence of the warning *)

(** C4, as the code has it. For every detected violation, when the store
    is reachable, exactly one Warning record is appended, carrying the
    reason and the configured administrator's id [ADMIN_ID] as issuing
    admin (not 0), and the stored count of a registered user grows by one;
    both hold under every outcome of the transport calls, so a failed mute
    or ban rolls nothing back. *)
Theorem warning_persisted_despite_sanction_failure
    ADMIN_ID update reason del m (u : User) w tgf :
  message update = Some (TgMessage m) →
  from_user m = Some u →
  db_faults w = [] →
  let w1 := with_tg_faults tgf w in
  let w' := snd (handle_violation ADMIN_ID update reason del w1) in
  warnings w' = (warnings w ++ [mkWarningDoc (id u) reason ADMIN_ID (utcnow w) false])%list ∧
  ∀ d, users w !! id u = Some d →
       ∃ d', users w' !! id u = Some d' ∧ warning_count d' = warning_count d + 1.
Proof.
  intros Hm Hu Hf w1 w'. subst w' w1.
  destruct (handle_violation_frame ADMIN_ID update reason del m u (with_tg_faults tgf w) Hm Hu)
    as (r & w' & l & E & _ & _ & _ & _ & _ & F & _).
  rewrite E. cbn [snd]. proj. destruct (F Hf) as (_ & W & U). done.
Qed.

Lemma warning_persisted_despite_sanction_failure_witness :
  let w := Nat.iter 2
             (λ w, snd (handle_violation 99 free_offer_update "Suspicious content" true w))
             world0 in
  let w' := snd (handle_violation 99 free_offer_update "Forwarded message" true
                   (with_tg_faults [false; true] w)) in
  (delete 1, true) ∈ new_calls w w' ∧
  (ban_member (-5) 7, false) ∈ new_calls w w' ∧
  warnings w' = (warnings w ++ [mkWarningDoc 7 "Forwarded message" 99 1000 false])%list ∧
  ∀ d, users w !! 7 = Some d →
       ∃ d', users w' !! 7 = Some d' ∧ warning_count d' = warning_count d + 1.
Proof.
  split; [vm_compute; apply list_elem_of_here|].
  split; [vm_compute; apply list_elem_of_further, list_elem_of_here|].
  apply (warning_persisted_despite_sanction_failure 99 free_offer_update
           "Forwarded message" true free_offer member7
           (Nat.iter 2
              (λ w, snd (handle_violation 99 free_offer_update "Suspicious content" true w))
              world0)
           [false; true]); reflexivity.
Defined.

(** C4, as stated, fails: the record written for a detected violation
    carries the administrator's id, here 99, not 0. *)
Lemma automatic_warning_admin_id_counterexample :
  let w' := snd (handle_violation 99 free_offer_update "Suspicious content" true world0) in
  ¬ ∃ doc, warnings w' = (warnings world0 ++ [doc])%list ∧
           w_reason doc = "Suspicious content" ∧ w_admin_id doc = 0.
Proof.
  intros w' (doc & Hw & _ & Ha). vm_compute in Hw.
  injection Hw as <-. discriminate Ha.
Qed.

(** ** Users without a record *)

(** C10. For a user with no User record the increment modifies nothing
    and returns false, and no run of the violation handler creates the
    record; so each of any number of successive violations reads count 0,
    runs the warning handler, never the mute or ban handler, and (with the
    store reachable) appends a Warning record. *)
Theorem unregistered_user_never_escalates ADMIN_ID update reason del m (u : User) w :
  message update = Some (TgMessage m) →
  from_user m = Some u →
  users w !! id u = None →
  let step w := snd (handle_violation ADMIN_ID update reason del w) in
  fst (update_user_warning (id u) true w) = Ok false ∧
  users (snd (update_user_warning (id u) true w)) = users w ∧
  ∀ n : nat,
    let wn := Nat.iter n step w in
    users wn = users w ∧
    current_warnings (id u) wn + 1 = 1 ∧
    tiers_dispatched wn (step wn) = [TierWarning] ∧
    (db_faults wn = [] →
     warnings (step wn)
     = (warnings wn ++ [mkWarningDoc (id u) reason ADMIN_ID (utcnow wn) false])%list).
Proof.
  intros Hm Hu Hn step.
  destruct (update_user_warning_frame (id u) w) as (b & w1 & E & _ & _ & _ & _ & N & _).
  rewrite E. cbn [fst snd]. destruct (N Hn) as [-> ->]. do 2 (split; [done|]).
  assert (∀ n, users (Nat.iter n step w) = users w) as Husers.
  { induction n as [|n IH]; [done|]. rewrite Nat.iter_succ. unfold step at 1.
    destruct (handle_violation_frame ADMIN_ID update reason del m u (Nat.iter n step w) Hm Hu)
      as (r & w' & l & E' & _ & _ & _ & _ & N' & _).
    rewrite E'. cbn [snd]. rewrite N'; [done|]. by rewrite IH. }
  intros n. specialize (Husers n).
  set (wn := Nat.iter n step w) in *.
  assert (users wn !! id u = None) as Hn' by (by rewrite Husers).
  assert (current_warnings (id u) wn + 1 = 1) as Hc
    by (by rewrite current_warnings_absent).
  split; [done|]. split; [done|]. unfold step.
  split.
  - rewrite (handle_violation_tiers _ _ _ _ _ _ _ Hm Hu), Hc. done.
  - intros Hf.
    destruct (handle_violation_frame ADMIN_ID update reason del m u wn Hm Hu)
      as (r & w' & l & E' & _ & _ & _ & _ & _ & F & _).
    rewrite E'. cbn [snd]. by destruct (F Hf) as (_ & W & _).
Qed.

Lemma unregistered_user_never_escalates_witness :
  let step w := snd (handle_violation 99 stranger_update "Forwarded message" true w) in
  let w3 := Nat.iter 3 step world0 in
  users w3 = users world0 ∧
  current_warnings 8 w3 + 1 = 1 ∧
  tiers_dispatched w3 (step w3) = [TierWarning] ∧
  (db_faults w3 = [] →
   warnings (step w3)
   = (warnings w3 ++ [mkWarningDoc 8 "Forwarded message" 99 (utcnow w3) false])%list).
Proof.
  apply (unregistered_user_never_escalates 99 stranger_update "Forwarded message" true
           _ stranger world0 eq_refl eq_refl eq_refl).
Defined.

(** ** Failure policy and monotonicity of the store *)

(** Run [add_subscription] in the goal, on a duration that can be added
    and on one that cannot. *)
Ltac split_add_subscription :=
  match goal with
  | |- context [add_subscription ?uid ?days ?w] =>
      let V := fresh "V" in
      destruct (valid_duration_dec w days) as [V|V];
      [rewrite (add_subscription_valid uid days w V)
      |rewrite (add_subscription_overflow uid days w V)]
  end.

(** Settle a hypothesis [store_failed w w'] on schedules that are known up
    to their tails. *)
Ltac store_failed_inv :=
  let pre := fresh "pre" in
  let fs' := fresh "fs" in
  let Hpre := fresh "Hpre" in
  let Hall := fresh "Hall" in
  let Hpost := fresh "Hpost" in
  let HL := fresh "HL" in
  intros (pre & fs' & Hpre & Hall & Hpost);
  cbn [db_faults fst snd] in Hpre, Hpost; subst fs';
  pose proof (f_equal length Hpre) as HL;
  rewrite length_app in HL; cbn [length] in HL;
  destruct pre as [|? [|? ?]]; cbn [length app] in *;
  try lia; simplify_eq;
  repeat match goal with
    | H : Forall _ (_ :: _) |- _ => inversion H; clear H; subst
    end;
  try discriminate.

(** C7. Whenever a call on the backing store fails during a Record Store
    operation, be it the first call or the second one of [add_subscription]
    and [remove_subscription], the operation logs under its name and
    returns its safe default ([get_user] null, the two listings an empty
    list, [update_user_warning] false, the mutations return normally),
    with the users and the warnings untouched, and with every collection
    untouched when the first call is the failing one.  A failure scheduled
    for the first call, or for the second call of the two operations that
    make two, is met by every operation that comes to call the store.
    Under every schedule of store failures each operation returns
    normally, but for [add_subscription] on a duration that cannot be
    added to the clock: there an [OverflowError] leaves it before any call
    on the store, so no failure of the store reaches the caller. *)
Theorem store_failure_safe_default (op : StoreOp) (w : World) :
  let r := exec op w in
  (store_failed w (snd r) →
     fst r = Ok (safe_default op) ∧
     errors (snd r) = (errors w ++ [method_name op])%list ∧
     users (snd r) = users w ∧ warnings (snd r) = warnings w ∧
     ∀ fs, db_faults w = true :: fs →
           snd r = with_errors (λ l, (l ++ [method_name op])%list) (with_db_faults fs w)) ∧
  (reaches_store w op →
     (∀ fs, db_faults w = true :: fs → store_failed w (snd r)) ∧
     (∀ fs, db_faults w = false :: true :: fs → two_store_calls op = true →
            store_failed w (snd r))) ∧
  ((∃ v, fst r = Ok v) ∨
   (∃ uid days, op = AddSubscription uid days ∧ ¬ valid_duration w days ∧
                r = (Raise OverflowError, w))).
Proof.
  intros r. subst r. destruct w as [us ws ss now g dbf tgf tr er].
  destruct op; unfold exec; try (unfold bind; split_add_subscription);
    unfold_db; try split_faults dbf;
    repeat match goal with
      | |- context [match ?m !! ?k with Some _ => _ | None => _ end] =>
          destruct (m !! k); unfold_monad
      | |- context [match ?l with [] => _ | _ :: _ => _ end] =>
          is_var l; split_faults l
      end;
    (split; [|split];
     [ store_failed_inv;
       repeat (split; [reflexivity|]); intros ? [= <-]; reflexivity
     | intros R;
       first [ solve [exfalso; match goal with V : ¬ _ |- _ => by apply V end]
             | split; [intros ? ?|intros ? ? ?]; simplify_eq/=;
               first [ by eexists [], _
                     | eexists [false], _; by repeat constructor ] ]
     | first [ left; by eexists
             | right; eexists _, _; split; [reflexivity|]; by split ] ]).
Qed.

Lemma store_failure_safe_default_witness :
  let w := with_db_faults [false; true] world0 in
  let r := exec (RemoveSubscription 7) w in
  store_failed w (snd r) ∧
  fst r = Ok PyNone ∧ errors (snd r) = ["remove_subscription"] ∧
  users (snd r) = users w ∧ warnings (snd r) = warnings w.
Proof.
  pose proof (store_failure_safe_default (RemoveSubscription 7)
                (with_db_faults [false; true] world0)) as (H1 & H2 & _).
  pose proof (proj2 (H2 I) [] eq_refl eq_refl) as HF.
  split; [exact HF|].
  destruct (H1 HF) as (R1 & R2 & R3 & R4 & _).
  split; [exact R1|]. split; [exact R2|]. split; [exact R3|exact R4].
Defined.

(** C5, as the code has it. Under every Record Store operation other
    than [reset_user_warnings] and [update_user_warning] called with
    [increment=False], and under every schedule of store failures, the
    stored count of every user is kept or raised, and a record that
    appears starts at 0; [reset_user_warnings] leaves each count
    unchanged or 0.  So counts stay non-negative as long as the decrement
    is not used. *)
Theorem warning_count_monotone (op : StoreOp) (w : World) :
  (∀ uid, op ≠ UpdateUserWarning uid false) →
  let w' := snd (exec op w) in
  (∀ k d, users w !! k = Some d →
     ∃ d', users w' !! k = Some d' ∧
           if op is ResetUserWarnings _
           then warning_count d' = 0 ∨ warning_count d' = warning_count d
           else warning_count d ≤ warning_count d') ∧
  (∀ k d', users w !! k = None → users w' !! k = Some d' → warning_count d' = 0).
Proof.
  intros Hop w'. subst w'. destruct w as [us ws ss now g dbf tgf tr er].
  destruct op as [| | uid [] | | | | | | | |];
    try (by destruct (Hop uid));
    unfold exec; try (unfold bind; split_add_subscription);
    unfold_db; try split_faults dbf;
    repeat match goal with
      | |- context [match ?m !! ?k with Some _ => _ | None => _ end] =>
          let E := fresh "E" in destruct (m !! k) eqn:E; unfold_monad
      | |- context [match ?l with [] => _ | _ :: _ => _ end] =>
          is_var l; split_faults l
      end;
    (split;
     [ intros k d Hd; rewrite ?lookup_alter, ?lookup_insert;
       repeat case_decide; subst; rewrite ?Hd; cbn;
       try congruence; eexists; (split; [reflexivity|]); cbn; auto; lia
     | intros k d' Hk; rewrite ?lookup_alter, ?lookup_insert;
       repeat case_decide; subst; rewrite ?Hk; cbn; intros; simplify_eq; done ]).
Qed.

Lemma warning_count_monotone_witness :
  ∃ d', users (snd (exec (UpdateUserWarning 7 true) world0)) !! 7 = Some d' ∧
        warning_count member7_doc ≤ warning_count d'.
Proof.
  refine (proj1 (warning_count_monotone (UpdateUserWarning 7 true) world0 _)
            7 member7_doc _); [intros uid; discriminate | reflexivity].
Defined.

(** C5, as stated, fails: the store offers a decrement, and it takes the
    count of member 7 from 0 to -1. *)
Lemma decrement_below_zero_counterexample :
  ∃ d', users (snd (exec (UpdateUserWarning 7 false) world0)) !! 7 = Some d' ∧
        warning_count d' < warning_count member7_doc ∧ warning_count d' < 0.
Proof. eexists. split; [vm_compute; reflexivity|]. cbn. lia. Qed.

(** ** Subscriptions *)

(** With the store reachable, [add_subscription] writes [now + days] as the
    expiry whatever record exists, and copies it into the user's record. *)
Lemma add_subscription_sets_now_plus_days uid days w :
  db_faults w = [] →
  valid_duration w days →
  let w' := snd (add_subscription uid days w) in
  let expiry := utcnow w + timedelta_days days in
  subscriptions w' !! uid = Some (mkSubscriptionDoc expiry (utcnow w)) ∧
  ∀ d, users w !! uid = Some d →
       users w' !! uid = Some (set_subscription_expiry (Some expiry) d).
Proof.
  intros Hf V. rewrite (add_subscription_valid _ _ _ V).
  destruct w as [us ws ss now g dbf tgf tr er]. cbn [db_faults] in Hf. subst dbf.
  unfold_db. destruct (us !! uid) eqn:E; unfold_monad.
  - split; [apply lookup_insert_eq|]. intros d [= <-]. by rewrite lookup_alter_eq, E.
  - split; [apply lookup_insert_eq|]. done.
Qed.

(** C2 at the failing input: 30 days are bought at time 1000, and 10 more
    one day later.  The code sets the expiry to the second call's time plus
    10 days, which is earlier than the expiry it replaces, where the claim
    has the old expiry plus 10 days. *)
Lemma add_subscription_shortens :
  let w1 := snd (add_subscription 7 30 world0) in
  let w2 := snd (add_subscription 7 10 (with_utcnow 87400 w1)) in
  expiry_date <$> subscriptions w1 !! 7 = Some (1000 + timedelta_days 30) ∧
  expiry_date <$> subscriptions w2 !! 7 = Some (87400 + timedelta_days 10) ∧
  subscription_expiry <$> users w2 !! 7 = Some (Some (87400 + timedelta_days 10)) ∧
  87400 + timedelta_days 10 < 1000 + timedelta_days 30 ∧
  87400 + timedelta_days 10 ≠ Z.max 87400 (1000 + timedelta_days 30) + timedelta_days 10.
Proof. vm_compute. repeat split; congruence. Qed.

(** ** The manual warning *)

(** The violation handler cannot run on the mock update: reading its
    user raises before any store or transport call. *)
Lemma handle_violation_mock ADMIN_ID n reason del w :
  handle_violation ADMIN_ID (mkUpdate n (Some MockMessage)) reason del w
  = (Raise AttributeError, w).
Proof. reflexivity. Qed.

(** Whatever its arguments, [admin_warn] changes no collection and makes no
    transport call but replies to the command. *)
Lemma admin_warn_store_unchanged ADMIN_ID int_of_str update context w :
  let w' := snd (admin_warn ADMIN_ID int_of_str update context w) in
  users w' = users w ∧ warnings w' = warnings w ∧
  subscriptions w' = subscriptions w ∧
  ∀ c, c ∈ new_calls w w' → ∃ t, fst c = reply_text t.
Proof.
  assert (∀ t w, let w' := snd (message_reply_text update t w) in
            users w' = users w ∧ warnings w' = warnings w ∧
            subscriptions w' = subscriptions w ∧
            ∀ c, c ∈ drop (length (trace w)) (trace w') → ∃ t, fst c = reply_text t) as Hreply.
  { intros t w0. unfold message_reply_text.
    destruct (message update) as [[msg|]|]; run;
      try (rewrite drop_all; repeat split; auto; intros c Hc; by apply elem_of_nil in Hc).
    destruct (tg_call_cases (reply_text t) w0) as (ok & fs & ->). cbn [snd]. proj.
    rewrite drop_app_length. repeat split; auto.
    intros c ->%list_elem_of_singleton. by exists t. }
  assert (∀ w : World, ∀ c, c ∈ drop (length (trace w)) (trace w) → ∃ t, fst c = reply_text t)
    as Hnil.
  { intros w0 c Hc. rewrite drop_all in Hc. by apply elem_of_nil in Hc. }
  unfold admin_warn, new_calls, effective_user.
  destruct (message update) as [[msg|]|] eqn:Hm; run; try (repeat split; auto; apply Hnil).
  destruct (from_user msg) as [u|]; cbn beta iota; [|repeat split; auto; apply Hnil].
  destruct (id u =? ADMIN_ID); cbn [negb]; [|repeat split; auto; apply Hnil].
  destruct (length (args context) <? 2)%nat; [apply Hreply|].
  unfold py_int. destruct (int_of_str _); run.
  - rewrite handle_violation_mock. cbn beta iota.
    specialize (Hreply ErrorIssuingWarning (with_errors (λ l, (l ++ ["admin_warn"])%list) w)).
    by proj.
  - apply Hreply.
Qed.

(** C3 at the failing input: the administrator 99 sends
    [/warn 7 spamming the group] while member 7 has no warnings, [int]
    reading the first argument as 7.  The violation handler is called on
    the mock update, which carries no user, and raises; member 7 keeps
    count 0, no Warning record is written, and the administrator is told
    that issuing the warning failed. *)
Lemma admin_warn_misses_target (int_of_str : string → option Z) :
  int_of_str "7" = Some 7 →
  admin_warn 99 int_of_str warn_command warn_args world0
  = (Ok tt,
     with_trace (λ _, [(reply_text ErrorIssuingWarning, true)])
       (with_errors (λ _, ["admin_warn"]) world0)) ∧
  let w' := snd (admin_warn 99 int_of_str warn_command warn_args world0) in
  warning_count <$> users w' !! 7 = Some 0 ∧ warnings w' = [].
Proof.
  intros H.
  assert (admin_warn 99 int_of_str warn_command warn_args world0
          = (Ok tt,
             with_trace (λ _, [(reply_text ErrorIssuingWarning, true)])
               (with_errors (λ _, ["admin_warn"]) world0))) as E.
  { unfold admin_warn, py_int, effective_user, message_reply_text. cbn.
    unfold try_except, bind. cbn [nth]. rewrite H. reflexivity. }
  rewrite E. split; [reflexivity|]. vm_compute. by split.
Qed.

Lemma admin_warn_misses_target_witness :
  admin_warn 99 int_on_examples warn_command warn_args world0
  = (Ok tt,
     with_trace (λ _, [(reply_text ErrorIssuingWarning, true)])
       (with_errors (λ _, ["admin_warn"]) world0)) ∧
  let w' := snd (admin_warn 99 int_on_examples warn_command warn_args world0) in
  warning_count <$> users w' !! 7 = Some 0 ∧ warnings w' = [].
Proof. apply (admin_warn_misses_target int_on_examples). reflexivity. Defined.

(** ** The administrator's notification *)

(** When the new count is 2 or more, the run ends normally with the
    notification to the administrator as its last transport call, whatever
    the outcomes of the transport calls (the end of the mute being a
    date). *)
Lemma sanction_failure_still_notifies ADMIN_ID update reason del m (u : User) w :
  message update = Some (TgMessage m) →
  from_user m = Some u →
  let new_warning_count := current_warnings (id u) w + 1 in
  2 ≤ new_warning_count →
  (new_warning_count = 2 → mute_end_in_range w) →
  let r := handle_violation ADMIN_ID update reason del w in
  fst r = Ok tt ∧
  ∃ calls action ok,
    new_calls w (snd r)
    = (calls ++ [(send_message ADMIN_ID
                    (ViolationAlert (tg_first_name u)
                       (str_or_default (tg_username u) "N/A") (id u) reason
                       new_warning_count action (utcnow w)), ok)])%list.
Proof.
  intros Hm Hu new_warning_count Hn HR r. subst r.
  destruct (handle_violation_frame ADMIN_ID update reason del m u w Hm Hu)
    as (r & w' & l & E & T & _ & _ & _ & _ & _ & N & _).
  rewrite E. cbn [fst snd]. rewrite (new_calls_app _ _ _ T).
  destruct (N Hn HR) as (-> & l0 & a & ok & -> & _). split; [done|]. by exists l0, a, ok.
Qed.

(** C8 at the failing input: the violation handler runs on a first
    violation of member 7 and the warning notice cannot be delivered to the
    group.  The failure leaves the handler before the notification: the run
    raises, the transport saw the deletion and the failed notice only, and
    nothing was sent to the administrator 99, although the Warning record
    and the count were written. *)
Lemma warning_notice_failure_skips_notification :
  let w := with_tg_faults [false; true] world0 in
  let r := handle_violation 99 free_offer_update "Suspicious content" true w in
  fst r = Raise TelegramError ∧
  new_calls w (snd r)
  = [(delete 1, true);
     (send_message (-5) (WarningMsg 1 "Ann" "Suspicious content"), false)] ∧
  (∀ c, c ∈ new_calls w (snd r) → ∀ t, fst c ≠ send_message 99 t) ∧
  warnings (snd r) = [mkWarningDoc 7 "Suspicious content" 99 1000 false] ∧
  warning_count <$> users (snd r) !! 7 = Some 1.
Proof.
  vm_compute. repeat split; try reflexivity.
  intros c Hc t. apply list_elem_of_In in Hc.
  destruct Hc as [<-|[<-|[]]]; discriminate.
Qed.

(** ** Classification *)

(** The message handler returns at once on a message of the administrator,
    and raises at the check for forwards on a message of anybody else. *)
Lemma handle_message_admin ADMIN_ID str_lower update m (u : User) w :
  message update = Some (TgMessage m) →
  from_user m = Some u →
  id u = ADMIN_ID →
  handle_message ADMIN_ID str_lower update w = (Ok tt, w).
Proof.
  intros Hm Hu Ha. unfold handle_message, effective_chat, effective_user.
  rewrite Hm, Hu. run. by rewrite Ha, Z.eqb_refl.
Qed.

Lemma handle_message_raises ADMIN_ID str_lower update m (u : User) w :
  message update = Some (TgMessage m) →
  from_user m = Some u →
  id u ≠ ADMIN_ID →
  handle_message ADMIN_ID str_lower update w = (Raise AttributeError, w).
Proof.
  intros Hm Hu Ha. unfold handle_message, effective_chat, effective_user.
  rewrite Hm, Hu. run. by destruct (Z.eqb_spec (id u) ADMIN_ID).
Qed.

(** C6, as the code behaves. The administrator's messages are exempt: the
    handler returns on them before any rule.  On a message of any other
    sender the handler raises [AttributeError] at the first rule, the check
    for forwards, whatever the message holds and whatever [str.lower]
    does: no rule classifies it, nothing is stored and no transport call
    is made. *)
Theorem classification_raises_at_forward_check
    ADMIN_ID (str_lower : string → string) update m (u : User) w :
  message update = Some (TgMessage m) →
  from_user m = Some u →
  handle_message ADMIN_ID str_lower update w
  = (if id u =? ADMIN_ID then Ok tt else Raise AttributeError, w).
Proof.
  intros Hm Hu. destruct (Z.eqb_spec (id u) ADMIN_ID) as [Ha|Ha].
  - by apply (handle_message_admin _ _ _ m u).
  - by apply (handle_message_raises _ _ _ m u).
Qed.

(** Member 7 writes "Get it for FREE", which holds a banned term: the
    handler raises, and the world is as before. *)
Lemma classification_raises_at_forward_check_witness :
  handle_message 99 (λ s, s) free_offer_update world0 = (Raise AttributeError, world0).
Proof.
  apply (classification_raises_at_forward_check 99 (λ s, s) free_offer_update
           free_offer member7 world0 eq_refl eq_refl).
Defined.

(** ** The sweep of expired subscriptions *)

Lemma get_user_reach uid w :
  db_faults w = [] → get_user uid w = (Ok (users w !! uid), w).
Proof.
  destruct w as [us ws ss now g dbf tgf tr er]. cbn [db_faults]. intros ->.
  reflexivity.
Qed.

Lemma remove_subscription_reach uid w :
  db_faults w = [] →
  remove_subscription uid w
  = (Ok tt, with_users (alter (set_subscription_expiry None) uid)
              (with_subscriptions (base.delete uid) w)).
Proof.
  destruct w as [us ws ss now g dbf tgf tr er]. cbn [db_faults]. intros ->.
  unfold_db. destruct (us !! uid) eqn:E; unfold_monad; [done|].
  by rewrite alter_id'.
Qed.

Lemma set_user_banned_reach uid b w :
  db_faults w = [] →
  set_user_banned uid b w = (Ok tt, with_users (alter (set_is_banned b) uid) w).
Proof.
  destruct w as [us ws ss now g dbf tgf tr er]. cbn [db_faults]. intros ->.
  unfold_db. destruct (us !! uid) eqn:E; unfold_monad; [done|].
  by rewrite alter_id'.
Qed.

Lemma get_expired_subscriptions_reach w :
  db_faults w = [] →
  get_expired_subscriptions w
  = (Ok (filter (λ kv, expiry_date (snd kv) < utcnow w)
           (map_to_list (subscriptions w))).*1, w).
Proof.
  destruct w as [us ws ss now g dbf tgf tr er]. cbn [db_faults]. intros ->.
  reflexivity.
Qed.

(** What the sweep does for one user, with the store reachable. *)
Lemma remove_expired_user_frame ADMIN_ID gid uid w :
  db_faults w = [] →
  ∃ w' l,
    remove_expired_user ADMIN_ID gid uid w = (Ok tt, w') ∧
    db_faults w' = [] ∧
    trace w' = (trace w ++ l)%list ∧
    (∀ k, k ≠ uid → users w' !! k = users w !! k ∧
                    subscriptions w' !! k = subscriptions w !! k) ∧
    match users w !! uid with
    | None =>
        l = [] ∧ users w' !! uid = None ∧
        subscriptions w' !! uid = subscriptions w !! uid
    | Some d =>
        ∃ ok : bool,
          if ok then
            subscriptions w' !! uid = None ∧
            users w' !! uid = Some (set_is_banned true (set_subscription_expiry None d)) ∧
            ∃ ok', l = [(ban_member gid uid, true);
                        (send_message ADMIN_ID (ExpiredAlert uid (first_name d)), ok')]
          else
            subscriptions w' !! uid = subscriptions w !! uid ∧
            users w' !! uid = Some d ∧
            l = [(ban_member gid uid, false)]
    end.
Proof.
  intros Hf. unfold remove_expired_user. run.
  rewrite (get_user_reach uid w Hf). cbn beta iota.
  destruct (users w !! uid) as [d|] eqn:Hd.
  - step_tg.
    + rewrite remove_subscription_reach by (proj; done). cbn beta iota.
      rewrite set_user_banned_reach by (proj; done). cbn beta iota.
      step_notify. destruct D as ((U & _ & S & _ & _ & F) & T). proj.
      eexists _, _. split; [reflexivity|]. rewrite F, T, U, S, <- app_assoc.
      split; [done|]. split; [reflexivity|]. split.
      * intros k Hk. by rewrite !lookup_alter_ne, lookup_delete_ne.
      * exists true. rewrite lookup_delete_eq, !lookup_alter_eq, Hd.
        split; [done|]. split; [done|]. by exists ok.
    + eexists _, _. split; [reflexivity|]. proj.
      split; [done|]. split; [reflexivity|]. split; [done|]. by exists false.
  - exists w, []. rewrite app_nil_r. by repeat split.
Qed.

Lemma sweep_loop ADMIN_ID gid ids :
  NoDup ids → ∀ w, db_faults w = [] →
  ∃ w' l,
    for_each ids (remove_expired_user ADMIN_ID gid) w = (Ok tt, w') ∧
    db_faults w' = [] ∧
    trace w' = (trace w ++ l)%list ∧
    (∀ k, k ∉ ids → users w' !! k = users w !! k ∧
                    subscriptions w' !! k = subscriptions w !! k) ∧
    (∀ k ok, (ban_member gid k, ok) ∈ l → k ∈ ids ∧ is_Some (users w !! k)) ∧
    (∀ uid, uid ∈ ids → sweep_outcome ADMIN_ID gid uid w w' l) ∧
    (∀ k name ok, (send_message ADMIN_ID (ExpiredAlert k name), ok) ∈ l →
                  k ∈ ids ∧ is_Some (users w !! k)).
Proof.
  induction 1 as [|a rest Ha Hnd IH]; intros w Hf.
  - exists w, []. rewrite app_nil_r. do 4 (split; [done|]). split; [|split].
    + intros k ok Hin. by apply elem_of_nil in Hin.
    + intros uid Hin. by apply elem_of_nil in Hin.
    + intros k name ok Hin. by apply elem_of_nil in Hin.
  - destruct (remove_expired_user_frame ADMIN_ID gid a w Hf)
      as (w1 & l1 & E1 & F1 & T1 & K1 & O1).
    destruct (IH w1 F1) as (w' & l2 & E2 & F2 & T2 & K2 & B2 & O2 & A2).
    exists w', (l1 ++ l2)%list. cbn [for_each].
    rewrite (bind_ok _ _ _ _ _ E1), E2.
    split; [done|]. split; [done|].
    split; [by rewrite T2, T1, app_assoc|].
    assert (∀ k, k ∈ rest → users w1 !! k = users w !! k ∧
                              subscriptions w1 !! k = subscriptions w !! k) as Hrest.
    { intros k Hk. apply K1. intros ->. done. }
    destruct (K2 a Ha) as [Ua Sa].
    split; [|split; [|split]]; cycle 3.
    { intros k name ok [Hin|Hin]%elem_of_app.
      - assert (k = a ∧ is_Some (users w !! a)) as [-> ?]; [|split; [left|done]].
        destruct (users w !! a) as [d|].
        + destruct O1 as ([] & O1).
          * destruct O1 as (_ & _ & ok' & ->).
            apply elem_of_cons in Hin as [[=]|Hin].
            apply list_elem_of_singleton in Hin as [= -> _ _]. done.
          * destruct O1 as (_ & _ & ->).
            apply list_elem_of_singleton in Hin. discriminate Hin.
        + destruct O1 as (-> & _). by apply elem_of_nil in Hin.
      - destruct (A2 k name ok Hin) as [Hk Hs]. split; [by right|].
        by destruct (Hrest k Hk) as [<- _]. }
    + intros k Hk. apply not_elem_of_cons in Hk as [Hk1 Hk2].
      destruct (K2 k Hk2) as [-> ->]. by apply K1.
    + intros k ok [Hin|Hin]%elem_of_app.
      * assert (k = a ∧ is_Some (users w !! a)) as [-> ?]; [|split; [left|done]].
        destruct (users w !! a) as [d|].
        -- destruct O1 as ([] & O1).
           ++ destruct O1 as (_ & _ & ok' & ->).
              apply elem_of_cons in Hin as [[= -> _]|Hin]; [done|].
              apply list_elem_of_singleton in Hin. discriminate Hin.
           ++ destruct O1 as (_ & _ & ->).
              apply list_elem_of_singleton in Hin as [= -> _]. done.
        -- destruct O1 as (-> & _). by apply elem_of_nil in Hin.
      * destruct (B2 k ok Hin) as [Hk Hs]. split; [by right|].
        by destruct (Hrest k Hk) as [<- _].
    + intros uid [->|Hin]%elem_of_cons; unfold sweep_outcome.
      * rewrite Ua, Sa. destruct (users w !! a) as [d|].
        -- destruct O1 as ([] & O1); [exists true|exists false].
           ++ destruct O1 as (? & ? & ok' & ->). do 2 (split; [done|]).
              by exists [], ok', l2.
           ++ destruct O1 as (? & ? & ->). do 2 (split; [done|]).
              apply elem_of_app. left. apply list_elem_of_here.
        -- by destruct O1 as (_ & ? & ?).
      * specialize (O2 uid Hin). unfold sweep_outcome in O2.
        destruct (Hrest uid Hin) as [HU HS]. rewrite HU, HS in O2.
        destruct (users w !! uid) as [d|]; [|done].
        destruct O2 as ([] & O2); [exists true|exists false].
        -- destruct O2 as (? & ? & pre & ok' & post & ->). do 2 (split; [done|]).
           exists (l1 ++ pre)%list, ok', post. by rewrite <- app_assoc.
        -- destruct O2 as (? & ? & ?). do 2 (split; [done|]).
           apply elem_of_app. by right.
Qed.

Lemma for_each_ok {A} (body : A → M unit) l :
  (∀ x w, ∃ w', body x w = (Ok tt, w')) →
  ∀ w, ∃ w', for_each l body w = (Ok tt, w').
Proof.
  intros Hbody. induction l as [|x l IH]; intros w; cbn [for_each].
  - by exists w.
  - destruct (Hbody x w) as (w1 & E). rewrite (bind_ok _ _ _ _ _ E). apply IH.
Qed.

Lemma remove_expired_user_ok ADMIN_ID gid uid w :
  ∃ w', remove_expired_user ADMIN_ID gid uid w = (Ok tt, w').
Proof.
  unfold remove_expired_user, try_except.
  match goal with |- context [match ?b w with _ => _ end] => destruct (b w) as [[[]|e] w1] end;
    cbn; by eexists.
Qed.

Lemma get_expired_subscriptions_ok w :
  ∃ ids w', get_expired_subscriptions w = (Ok ids, w').
Proof.
  destruct w as [us ws ss now g dbf tgf tr er]. unfold_db.
  split_faults dbf; by eexists _, _.
Qed.

(** Under any schedule of store and transport failures the sweep ends
    normally. *)
Lemma check_expired_subscriptions_ok ADMIN_ID w :
  fst (check_expired_subscriptions ADMIN_ID w) = Ok tt.
Proof.
  unfold check_expired_subscriptions. run.
  destruct (group_id w) as [gid|]; [|done].
  destruct (gid =? 0); [done|].
  destruct (get_expired_subscriptions_ok w) as (ids & w2 & ->). cbn beta iota.
  by destruct (for_each_ok (remove_expired_user ADMIN_ID gid) ids
                 (remove_expired_user_ok ADMIN_ID gid) w2) as (w' & ->).
Qed.

Lemma expired_ids_spec (w : World) uid :
  uid ∈ (filter (λ kv, expiry_date (snd kv) < utcnow w)
           (map_to_list (subscriptions w))).*1
  ↔ ∃ s, subscriptions w !! uid = Some s ∧ expiry_date s < utcnow w.
Proof.
  rewrite list_elem_of_fmap. split.
  - intros ([k s] & -> & [H1 H2%elem_of_map_to_list]%list_elem_of_filter). by exists s.
  - intros (s & Hs & Hlt). exists (uid, s). split; [done|].
    apply list_elem_of_filter. split; [done|]. by apply elem_of_map_to_list.
Qed.

Lemma expired_ids_NoDup (w : World) :
  NoDup (filter (λ kv, expiry_date (snd kv) < utcnow w)
           (map_to_list (subscriptions w))).*1.
Proof.
  eapply sublist_NoDup; [apply (NoDup_fst_map_to_list (subscriptions w))|].
  apply fmap_sublist, sublist_filter.
Qed.

(** C9, as the code has it. The sweep never raises.  It does nothing
    when no group id is recorded.  With a group id recorded and the store
    reachable, every user id with an expired subscription is handled on its
    own, whatever happened to the others: if the user has a record, the
    removal from the group is attempted, and when it goes through the
    subscription is deleted, the user is marked banned and the
    administrator is notified right after the removal, while a failed
    removal leaves that user's records as they were; if the user has no
    record, the id is skipped: no removal is attempted, no notification is
    sent for it and its subscription stays. *)
Theorem expired_sweep_per_user ADMIN_ID :
  (∀ w, fst (check_expired_subscriptions ADMIN_ID w) = Ok tt) ∧
  (∀ w, group_id w = None → check_expired_subscriptions ADMIN_ID w = (Ok tt, w)) ∧
  (∀ w gid,
     group_id w = Some gid → gid ≠ 0 → db_faults w = [] →
     let w' := snd (check_expired_subscriptions ADMIN_ID w) in
     ∀ uid s, subscriptions w !! uid = Some s → expiry_date s < utcnow w →
       sweep_outcome ADMIN_ID gid uid w w' (new_calls w w') ∧
       (users w !! uid = None →
        subscriptions w' !! uid = Some s ∧
        ∀ c, c ∈ new_calls w w' →
             fst c ≠ ban_member gid uid ∧
             ∀ name, fst c ≠ send_message ADMIN_ID (ExpiredAlert uid name))).
Proof.
  split; [apply check_expired_subscriptions_ok|]. split.
  { intros w Hg. unfold check_expired_subscriptions. run. by rewrite Hg. }
  intros w gid Hg Hgid Hf w' uid s Hs Hlt. subst w'.
  unfold check_expired_subscriptions. run. rewrite Hg.
  destruct (Z.eqb_spec gid 0) as [|_]; [done|].
  rewrite (get_expired_subscriptions_reach w Hf). cbn beta iota.
  destruct (sweep_loop ADMIN_ID gid _ (expired_ids_NoDup w) w Hf)
    as (w' & l & E & _ & T & _ & B & O & A).
  rewrite E. cbn [snd]. rewrite (new_calls_app _ _ _ T).
  assert (sweep_outcome ADMIN_ID gid uid w w' l) as Hout.
  { apply O, expired_ids_spec. by exists s. }
  split; [done|].
  intros Hn. split.
  - unfold sweep_outcome in Hout. rewrite Hn in Hout. destruct Hout as [_ ->]. done.
  - intros [c ok] Hin. cbn [fst]. split.
    + intros ->. destruct (B uid ok Hin) as [_ [d Hd]]. congruence.
    + intros name ->. destruct (A uid name ok Hin) as [_ [d Hd]]. congruence.
Qed.

Lemma expired_sweep_per_user_witness :
  let w' := snd (check_expired_subscriptions 99 lapsed_member_world) in
  sweep_outcome 99 (-5) 7 lapsed_member_world w' (new_calls lapsed_member_world w') ∧
  new_calls lapsed_member_world w'
  = [(ban_member (-5) 7, true); (send_message 99 (ExpiredAlert 7 "Ann"), true)] ∧
  subscriptions w' !! 7 = None.
Proof.
  split; [|split; reflexivity].
  apply (proj2 (proj2 (expired_sweep_per_user 99)) lapsed_member_world (-5)
           eq_refl ltac:(discriminate) eq_refl 7
           (mkSubscriptionDoc 87400 1000) eq_refl eq_refl).
Defined.

(** C9, as stated, fails: user 8 has an expired subscription and no User
    record; the listing returns 8, yet the sweep leaves the world as it
    was: it attempts no removal, deletes no subscription and sends no
    notification. *)
Lemma expired_without_record_counterexample :
  fst (get_expired_subscriptions lapsed_stranger_world) = Ok [8] ∧
  check_expired_subscriptions 99 lapsed_stranger_world = (Ok tt, lapsed_stranger_world) ∧
  subscriptions lapsed_stranger_world !! 8 = Some (mkSubscriptionDoc 87400 1000).
Proof. vm_compute. repeat split; reflexivity. Qed.

(** ** Further properties of [DatabaseManager] *)

Lemma add_warning_reach uid reason a w :
  db_faults w = [] →
  add_warning uid reason a w
  = (Ok tt, with_warnings (λ l, (l ++ [mkWarningDoc uid reason a (utcnow w) false])%list) w).
Proof.
  destruct w as [us ws ss now g dbf tgf tr er]. cbn [db_faults]. by intros ->.
Qed.

Lemma update_user_warning_reach uid increment w :
  db_faults w = [] →
  update_user_warning uid increment w
  = (Ok (bool_decide (is_Some (users w !! uid))),
     with_users (alter (λ d, let d' := inc_warning_count (if increment then 1 else -1) d in
                             if increment then set_last_warning (utcnow w) d' else d') uid) w).
Proof.
  destruct w as [us ws ss now g dbf tgf tr er]. cbn [db_faults]. intros ->.
  unfold_db. destruct (us !! uid) eqn:E; unfold_monad.
  - by rewrite bool_decide_eq_true_2.
  - rewrite bool_decide_eq_false_2 by (by intros [? ?]). by rewrite alter_id'.
Qed.

Lemma set_user_muted_reach uid b w :
  db_faults w = [] →
  set_user_muted uid b w = (Ok tt, with_users (alter (set_is_muted b) uid) w).
Proof.
  destruct w as [us ws ss now g dbf tgf tr er]. cbn [db_faults]. intros ->.
  unfold_db. destruct (us !! uid) eqn:E; unfold_monad; [done|].
  by rewrite alter_id'.
Qed.

Lemma reset_user_warnings_reach uid w :
  db_faults w = [] →
  reset_user_warnings uid w = (Ok tt, with_users (alter (set_warning_count 0) uid) w).
Proof.
  destruct w as [us ws ss now g dbf tgf tr er]. cbn [db_faults]. intros ->.
  unfold_db. destruct (us !! uid) eqn:E; unfold_monad; [done|].
  by rewrite alter_id'.
Qed.

Lemma create_user_reach uid uname first last w :
  db_faults w = [] → users w !! uid = None →
  create_user uid uname first last w
  = (Ok tt, with_users
              (insert uid (mkUserDoc uid uname first last (utcnow w) 0 false false None None None)) w).
Proof.
  destruct w as [us ws ss now g dbf tgf tr er]. cbn [db_faults users]. intros -> E.
  unfold_db. cbn [user_id]. by rewrite E.
Qed.

Lemma add_subscription_reach uid days w :
  db_faults w = [] →
  valid_duration w days →
  add_subscription uid days w
  = (Ok tt,
     with_users (alter (set_subscription_expiry (Some (utcnow w + timedelta_days days))) uid)
       (with_subscriptions
          (insert uid (mkSubscriptionDoc (utcnow w + timedelta_days days) (utcnow w))) w)).
Proof.
  intros Hf V. rewrite (add_subscription_valid _ _ _ V).
  destruct w as [us ws ss now g dbf tgf tr er]. cbn [db_faults] in Hf. subst dbf.
  unfold_db. destruct (us !! uid) eqn:E; unfold_monad; [done|].
  by rewrite alter_id'.
Qed.

(** X1. A member registered by [create_user] is read back by [get_user]
    with the names given, the join date of the call, no warnings, no mute,
    no ban and no subscription; no other record and no other collection
    changes. *)
Theorem create_user_then_get_user uid uname first last w :
  db_faults w = [] →
  users w !! uid = None →
  let w1 := snd (create_user uid uname first last w) in
  fst (get_user uid w1)
  = Ok (Some (mkUserDoc uid uname first last (utcnow w) 0 false false None None None)) ∧
  (∀ k, k ≠ uid → users w1 !! k = users w !! k) ∧
  warnings w1 = warnings w ∧ subscriptions w1 = subscriptions w.
Proof.
  intros Hf Hn w1. subst w1. rewrite (create_user_reach _ _ _ _ _ Hf Hn). cbn [snd].
  rewrite get_user_reach by (proj; done). proj. cbn [fst].
  rewrite lookup_insert_eq. split; [done|]. split; [|done].
  intros k Hk. by rewrite lookup_insert_ne.
Qed.

Lemma create_user_then_get_user_witness :
  fst (get_user 8 (snd (create_user 8 "bob" "Bob" "" world0)))
  = Ok (Some (mkUserDoc 8 "bob" "Bob" "" 1000 0 false false None None None)).
Proof.
  apply (create_user_then_get_user 8 "bob" "Bob" "" world0 eq_refl eq_refl).
Defined.

Lemma create_user_existing_users uid uname first last w d :
  users w !! uid = Some d →
  ∃ w', create_user uid uname first last w = (Ok tt, w') ∧ users w' = users w.
Proof.
  destruct w as [us ws ss now g dbf tgf tr er]. cbn [users]. intros E.
  unfold_db. cbn [user_id]. split_faults dbf; rewrite ?E; unfold_monad; by eexists.
Qed.

(** X2. [create_user] on an id that already has a record changes no
    collection, under any schedule of store failures: the warnings, mute
    and ban of a member who joins again are kept.  It returns normally,
    and with the store reachable the rejected insert is logged. *)
Theorem create_user_keeps_existing uid uname first last w d :
  users w !! uid = Some d →
  let r := create_user uid uname first last w in
  fst r = Ok tt ∧
  users (snd r) = users w ∧ warnings (snd r) = warnings w ∧
  subscriptions (snd r) = subscriptions w ∧
  (db_faults w = [] → errors (snd r) = (errors w ++ ["create_user"])%list).
Proof.
  destruct w as [us ws ss now g dbf tgf tr er]. cbn [users db_faults]. intros E.
  unfold_db. cbn [user_id]. split_faults dbf; rewrite ?E; unfold_monad; by repeat split.
Qed.

Lemma create_user_keeps_existing_witness :
  let w := snd (update_user_warning 7 true world0) in
  let r := create_user 7 "ann" "Ann" "" w in
  warning_count <$> users w !! 7 = Some 1 ∧ users (snd r) = users w.
Proof.
  split; [reflexivity|].
  apply (create_user_keeps_existing 7 "ann" "Ann" "" (snd (update_user_warning 7 true world0))
           (set_last_warning 1000 (inc_warning_count 1 member7_doc)) eq_refl).
Defined.

(** X3. On a registered member with the store reachable, an increment
    followed by a decrement of the warning count both report a modified
    record and restore the count, while the time of the last warning set
    by the increment stays. *)
Theorem increment_then_decrement uid w d :
  db_faults w = [] →
  users w !! uid = Some d →
  let r1 := update_user_warning uid true w in
  let r2 := update_user_warning uid false (snd r1) in
  fst r1 = Ok true ∧ fst r2 = Ok true ∧
  users (snd r1) !! uid = Some (set_last_warning (utcnow w) (inc_warning_count 1 d)) ∧
  users (snd r2) !! uid = Some (set_last_warning (utcnow w) d) ∧
  (∀ k, k ≠ uid → users (snd r2) !! k = users w !! k).
Proof.
  intros Hf Hd r1 r2. subst r1 r2.
  rewrite (update_user_warning_reach uid true w Hf). cbn [fst snd].
  rewrite update_user_warning_reach by (proj; done). cbn [fst snd]. proj.
  rewrite !lookup_alter_eq, Hd. cbn [fmap option_fmap option_map].
  rewrite !bool_decide_eq_true_2 by (by eexists).
  do 3 (split; [done|]). split.
  - f_equal. destruct d. unfold set_last_warning, inc_warning_count. cbn. f_equal. lia.
  - intros k Hk. by rewrite !lookup_alter_ne.
Qed.

Lemma increment_then_decrement_witness :
  let r1 := update_user_warning 7 true world0 in
  let r2 := update_user_warning 7 false (snd r1) in
  users (snd r2) !! 7 = Some (set_last_warning 1000 member7_doc).
Proof.
  apply (increment_then_decrement 7 world0 member7_doc eq_refl eq_refl).
Defined.

(** X4. With the store reachable, [reset_user_warnings] sets the count of
    a registered member to 0 and changes nothing else of the record, so
    the mute and ban flags stay as they were; the member's next violation
    then runs the warning handler again. *)
Theorem reset_restarts_escalation ADMIN_ID update reason del m (u : User) w d :
  message update = Some (TgMessage m) →
  from_user m = Some u →
  db_faults w = [] →
  users w !! id u = Some d →
  let w1 := snd (reset_user_warnings (id u) w) in
  users w1 !! id u = Some (set_warning_count 0 d) ∧
  (∀ k, k ≠ id u → users w1 !! k = users w !! k) ∧
  tiers_dispatched w1 (snd (handle_violation ADMIN_ID update reason del w1)) = [TierWarning].
Proof.
  intros Hm Hu Hf Hd w1. subst w1.
  rewrite (reset_user_warnings_reach (id u) w Hf). cbn [snd]. proj.
  rewrite lookup_alter_eq, Hd. split; [done|]. split.
  - intros k Hk. by rewrite lookup_alter_ne.
  - rewrite (handle_violation_tiers _ _ _ _ _ _ _ Hm Hu).
    unfold current_warnings. rewrite get_user_reach by (proj; done). cbn [fst]. proj.
    by rewrite lookup_alter_eq, Hd.
Qed.

Lemma reset_restarts_escalation_witness :
  let w := Nat.iter 3
             (λ w, snd (handle_violation 99 free_offer_update "Suspicious content" true w))
             world0 in
  let w1 := snd (reset_user_warnings 7 w) in
  (warning_count <$> users w !! 7 = Some 3 ∧ is_banned <$> users w !! 7 = Some true) ∧
  (warning_count <$> users w1 !! 7 = Some 0 ∧ is_banned <$> users w1 !! 7 = Some true) ∧
  tiers_dispatched w1 (snd (handle_violation 99 free_offer_update "Suspicious content" true w1))
  = [TierWarning].
Proof.
  split; [split; reflexivity|]. split; [split; reflexivity|].
  eapply (reset_restarts_escalation 99 free_offer_update "Suspicious content" true
            free_offer member7
            (Nat.iter 3
               (λ w, snd (handle_violation 99 free_offer_update "Suspicious content" true w))
               world0));
    vm_compute; reflexivity.
Defined.

(** *** The listing of warnings *)

Lemma insert_descending_perm x l : insert_descending x l ≡ₚ x :: l.
Proof.
  induction l as [|y l IH]; cbn [insert_descending]; [done|].
  destruct (w_timestamp y <? w_timestamp x); [done|].
  rewrite IH. apply Permutation_swap.
Qed.

Lemma sort_descending_perm l : sort_descending l ≡ₚ l.
Proof.
  induction l as [|x l IH]; [done|]. unfold sort_descending in *. cbn [foldr].
  by rewrite insert_descending_perm, IH.
Qed.

Lemma insert_descending_sorted x l :
  StronglySorted (λ a b, w_timestamp b ≤ w_timestamp a) l →
  StronglySorted (λ a b, w_timestamp b ≤ w_timestamp a) (insert_descending x l).
Proof.
  induction 1 as [|y l Hs IH Hy]; cbn [insert_descending].
  - repeat constructor.
  - destruct (Z.ltb_spec (w_timestamp y) (w_timestamp x)) as [Hlt|Hge].
    + constructor; [by constructor|]. constructor; [lia|].
      eapply Forall_impl; [exact Hy|]. cbn. intros z Hz. lia.
    + constructor; [done|]. rewrite insert_descending_perm. by constructor.
Qed.

Lemma sort_descending_sorted l :
  StronglySorted (λ a b, w_timestamp b ≤ w_timestamp a) (sort_descending l).
Proof.
  induction l as [|x l IH]; [constructor|]. unfold sort_descending in *. cbn [foldr].
  by apply insert_descending_sorted.
Qed.

(** X5. With the store reachable, [get_user_warnings] returns warnings of
    the given user only, most recent first, and when a positive limit cuts
    the listing short the warnings left out are no more recent than any
    one returned: the result followed by the rest is the user's warnings,
    in descending order of time.  Limit 0 returns them all; the store is
    not changed. *)
Theorem get_user_warnings_most_recent uid limit w :
  db_faults w = [] →
  let mine := filter (λ d, w_user_id d = uid) (warnings w) in
  ∃ l rest,
    get_user_warnings uid limit w = (Ok l, w) ∧
    (l ++ rest)%list ≡ₚ mine ∧
    StronglySorted (λ a b, w_timestamp b ≤ w_timestamp a) (l ++ rest)%list ∧
    length l = (if limit =? 0 then length mine
                else Nat.min (Z.abs_nat limit) (length mine)) ∧
    (∀ d, d ∈ l → w_user_id d = uid ∧ d ∈ warnings w).
Proof.
  intros Hf mine.
  assert (get_user_warnings uid limit w
          = (Ok (cursor_limit limit (sort_descending mine)), w)) as ->.
  { destruct w as [us ws ss now g dbf tgf tr er]. cbn [db_faults] in Hf. by subst. }
  assert (∀ l rest, (l ++ rest)%list = sort_descending mine →
            ∀ d, d ∈ l → w_user_id d = uid ∧ d ∈ warnings w) as Hin.
  { intros l rest E d Hd.
    assert (d ∈ mine) as [? ?]%list_elem_of_filter; [|done].
    rewrite <- (sort_descending_perm mine), <- E. apply elem_of_app. by left. }
  unfold cursor_limit. destruct (limit =? 0).
  - exists (sort_descending mine), []. rewrite app_nil_r.
    split; [done|]. split; [apply sort_descending_perm|].
    split; [apply sort_descending_sorted|].
    split; [by rewrite (sort_descending_perm mine)|].
    apply (Hin _ []). by rewrite app_nil_r.
  - exists (take (Z.abs_nat limit) (sort_descending mine)),
           (drop (Z.abs_nat limit) (sort_descending mine)).
    rewrite take_drop. split; [done|]. split; [apply sort_descending_perm|].
    split; [apply sort_descending_sorted|].
    split; [by rewrite length_take, (sort_descending_perm mine)|].
    apply (Hin _ (drop (Z.abs_nat limit) (sort_descending mine))). apply take_drop.
Qed.

Lemma get_user_warnings_most_recent_witness :
  fst (get_user_warnings 7 2 warned_world)
  = Ok [mkWarningDoc 7 "c" 99 30 false; mkWarningDoc 7 "d" 99 20 false] ∧
  let mine := filter (λ d, w_user_id d = 7) (warnings warned_world) in
  ∃ l rest,
    get_user_warnings 7 2 warned_world = (Ok l, warned_world) ∧
    (l ++ rest)%list ≡ₚ mine ∧
    StronglySorted (λ a b, w_timestamp b ≤ w_timestamp a) (l ++ rest)%list ∧
    length l = (if 2 =? 0 then length mine else Nat.min (Z.abs_nat 2) (length mine)) ∧
    (∀ d, d ∈ l → w_user_id d = 7 ∧ d ∈ warnings warned_world).
Proof.
  split; [reflexivity|].
  apply (get_user_warnings_most_recent 7 2 warned_world eq_refl).
Defined.

(** *** Subscriptions *)

(** X6. With the store reachable, [get_expired_subscriptions] returns,
    each once, exactly the ids of the users whose subscription record has
    an expiry strictly before now; a user without a record, or whose
    expiry is now or later, is not listed.  The store is not changed. *)
Theorem get_expired_subscriptions_exact w :
  db_faults w = [] →
  ∃ ids,
    get_expired_subscriptions w = (Ok ids, w) ∧
    NoDup ids ∧
    ∀ uid, uid ∈ ids ↔ ∃ s, subscriptions w !! uid = Some s ∧ expiry_date s < utcnow w.
Proof.
  intros Hf. eexists. split; [apply (get_expired_subscriptions_reach w Hf)|].
  split; [apply expired_ids_NoDup|]. intros uid. apply expired_ids_spec.
Qed.

Lemma get_expired_subscriptions_exact_witness :
  ∃ ids,
    get_expired_subscriptions lapsed_member_world = (Ok ids, lapsed_member_world) ∧
    NoDup ids ∧
    ∀ uid, uid ∈ ids ↔
      ∃ s, subscriptions lapsed_member_world !! uid = Some s ∧
           expiry_date s < utcnow lapsed_member_world.
Proof. apply (get_expired_subscriptions_exact lapsed_member_world eq_refl). Defined.

(** X7. [add_subscription] does not check the sign of the number of days.
    With the store reachable and a duration that can be added to the
    clock, a listing of the expired subscriptions made at a time [t] after
    the call lists the user exactly when the clock of the call plus the
    days lies before [t]; so a subscription of a negative number of days
    is listed as expired by every listing made at or after the call.  The
    listing of every other user is what it would be without the call. *)
Theorem add_subscription_negative_days uid days w (t : datetime) :
  db_faults w = [] →
  valid_duration w days →
  let w1 := with_utcnow t (snd (add_subscription uid days w)) in
  ∃ ids0 ids1,
    fst (get_expired_subscriptions (with_utcnow t w)) = Ok ids0 ∧
    fst (get_expired_subscriptions w1) = Ok ids1 ∧
    (uid ∈ ids1 ↔ utcnow w + timedelta_days days < t) ∧
    (days < 0 → utcnow w ≤ t → uid ∈ ids1) ∧
    (∀ k, k ≠ uid → k ∈ ids1 ↔ k ∈ ids0).
Proof.
  intros Hf V w1. subst w1. rewrite (add_subscription_reach uid days w Hf V). cbn [snd].
  rewrite !get_expired_subscriptions_reach by (proj; done). cbn [fst].
  eexists _, _. split; [reflexivity|]. split; [reflexivity|].
  pose proof (expired_ids_spec
                (with_utcnow t
                   (with_subscriptions
                      (insert uid (mkSubscriptionDoc (utcnow w + timedelta_days days) (utcnow w)))
                      w))) as Hspec1.
  pose proof (expired_ids_spec (with_utcnow t w)) as Hspec0.
  proj.
  assert (uid ∈ (filter (λ kv, expiry_date kv.2 < t)
                   (map_to_list (<[uid:=mkSubscriptionDoc (utcnow w + timedelta_days days)
                                          (utcnow w)]> (subscriptions w)))).*1
          ↔ utcnow w + timedelta_days days < t) as Hiff.
  { rewrite Hspec1, lookup_insert_eq. split.
    - by intros (s & [= <-] & Hlt).
    - intros Hd. eexists. by split. }
  split; [exact Hiff|]. split.
  - intros Hd Ht. apply Hiff. unfold timedelta_days. lia.
  - intros k Hk. by rewrite Hspec1, Hspec0, lookup_insert_ne.
Qed.

Lemma add_subscription_negative_days_witness :
  let w1 := with_utcnow 1000 (snd (add_subscription 7 (-1) world0)) in
  fst (get_expired_subscriptions w1) = Ok [7] ∧
  ∃ ids0 ids1,
    fst (get_expired_subscriptions (with_utcnow 1000 world0)) = Ok ids0 ∧
    fst (get_expired_subscriptions w1) = Ok ids1 ∧
    (7 ∈ ids1 ↔ utcnow world0 + timedelta_days (-1) < 1000) ∧
    (-1 < 0 → utcnow world0 ≤ 1000 → 7 ∈ ids1) ∧
    (∀ k, k ≠ 7 → k ∈ ids1 ↔ k ∈ ids0).
Proof.
  split; [reflexivity|].
  apply (add_subscription_negative_days 7 (-1) world0 1000 eq_refl).
  by vm_compute.
Defined.

(** X8. With the store reachable, [remove_subscription] undoes
    [add_subscription] for a user who had no subscription: the
    subscriptions are as before, and so is the user's record, whose
    cached expiry is empty again. *)
Theorem add_then_remove_subscription uid days w :
  db_faults w = [] →
  subscriptions w !! uid = None →
  (∀ d, users w !! uid = Some d → subscription_expiry d = None) →
  let w2 := snd (remove_subscription uid (snd (add_subscription uid days w))) in
  subscriptions w2 = subscriptions w ∧ users w2 = users w ∧ warnings w2 = warnings w.
Proof.
  intros Hf Hs Hc w2. subst w2.
  destruct (valid_duration_dec w days) as [V|V].
  - rewrite (add_subscription_reach uid days w Hf V). cbn [snd].
    rewrite remove_subscription_reach by (proj; done). cbn [snd]. proj.
    split; [by rewrite delete_insert_id|]. split; [|done].
    apply map_eq. intros k. destruct (decide (k = uid)) as [->|Hk].
    + rewrite !lookup_alter_eq. destruct (users w !! uid) as [d|] eqn:E; [|done].
      cbn. f_equal. specialize (Hc d eq_refl). destruct d. cbn in Hc. by subst.
    + by rewrite !lookup_alter_ne.
  - (* the duration cannot be added: nothing was written *)
    rewrite (add_subscription_overflow uid days w V). cbn [snd].
    rewrite (remove_subscription_reach uid w Hf). cbn [snd]. proj.
    split; [by apply delete_id|]. split; [|done].
    apply map_eq. intros k. destruct (decide (k = uid)) as [->|Hk].
    + rewrite lookup_alter_eq. destruct (users w !! uid) as [d|] eqn:E; [|done].
      cbn. f_equal. specialize (Hc d eq_refl). destruct d. cbn in Hc. by subst.
    + by rewrite lookup_alter_ne.
Qed.

Lemma add_then_remove_subscription_witness :
  let w2 := snd (remove_subscription 7 (snd (add_subscription 7 30 world0))) in
  subscriptions w2 = subscriptions world0 ∧ users w2 = users world0 ∧
  warnings w2 = warnings world0.
Proof.
  apply (add_then_remove_subscription 7 30 world0 eq_refl eq_refl).
  intros d Hd. vm_compute in Hd. injection Hd as <-. reflexivity.
Defined.

(** X9. With the store reachable, after [remove_subscription] the user
    has no subscription record and the cached expiry of a registered user
    is empty; no other user's subscription or record changes, and removing
    again changes no collection. *)
Theorem remove_subscription_clears uid w :
  db_faults w = [] →
  let w1 := snd (remove_subscription uid w) in
  let w2 := snd (remove_subscription uid w1) in
  subscriptions w1 !! uid = None ∧
  (∀ d, users w !! uid = Some d →
        users w1 !! uid = Some (set_subscription_expiry None d)) ∧
  (∀ k, k ≠ uid → subscriptions w1 !! k = subscriptions w !! k ∧
                  users w1 !! k = users w !! k) ∧
  subscriptions w2 = subscriptions w1 ∧ users w2 = users w1.
Proof.
  intros Hf w1 w2. subst w1 w2. rewrite (remove_subscription_reach uid w Hf). cbn [snd].
  rewrite remove_subscription_reach by (proj; done). cbn [snd]. proj.
  split; [apply lookup_delete_eq|]. split.
  { intros d Hd. by rewrite lookup_alter_eq, Hd. }
  split.
  { intros k Hk. by rewrite lookup_delete_ne, lookup_alter_ne. }
  split; [by rewrite delete_delete_eq|].
  apply map_eq. intros k. destruct (decide (k = uid)) as [->|Hk].
  - rewrite !lookup_alter_eq. by destruct (users w !! uid) as [[]|].
  - by rewrite !lookup_alter_ne.
Qed.

Lemma remove_subscription_clears_witness :
  let w1 := snd (remove_subscription 7 lapsed_member_world) in
  subscriptions lapsed_member_world !! 7 = Some (mkSubscriptionDoc 87400 1000) ∧
  subscriptions w1 !! 7 = None.
Proof.
  split; [reflexivity|]. apply (remove_subscription_clears 7 lapsed_member_world eq_refl).
Defined.

(** X10. When the duration can be added to the clock, the write of the
    subscription record goes through and the update of the user's record
    that follows fails, [add_subscription] still returns normally after
    logging: the new subscription record is stored while the user's
    record, and with it the cached expiry, is left as it was. *)
Theorem add_subscription_half_written uid days w fs :
  valid_duration w days →
  let w0 := with_db_faults (false :: true :: fs) w in
  let r := add_subscription uid days w0 in
  fst r = Ok tt ∧
  subscriptions (snd r) !! uid
  = Some (mkSubscriptionDoc (utcnow w + timedelta_days days) (utcnow w)) ∧
  users (snd r) = users w ∧
  errors (snd r) = (errors w ++ ["add_subscription"])%list ∧
  db_faults (snd r) = fs.
Proof.
  intros V w0 r. subst r w0.
  rewrite add_subscription_valid by (destruct w; exact V).
  destruct w as [us ws ss now g dbf tgf tr er]. unfold_db.
  split; [done|]. split; [apply lookup_insert_eq|]. done.
Qed.

Lemma add_subscription_half_written_witness :
  let r := add_subscription 7 30 (with_db_faults [false; true] world0) in
  fst r = Ok tt ∧
  subscriptions (snd r) !! 7 = Some (mkSubscriptionDoc (1000 + timedelta_days 30) 1000) ∧
  users (snd r) = users world0 ∧
  errors (snd r) = ["add_subscription"] ∧
  db_faults (snd r) = [].
Proof.
  apply (add_subscription_half_written 7 30 world0 []). by vm_compute.
Defined.

(** ** Further properties of the handlers *)

Lemma tg_call_reach c w :
  tg_faults w = [] →
  tg_call c w = (Ok tt, with_trace (λ t, (t ++ [(c, true)])%list) w).
Proof.
  destruct w as [us ws ss now g dbf tgf tr er]. cbn [tg_faults]. by intros ->.
Qed.

(** Run the goal on with every call going through. *)
Ltac reach :=
  repeat (first
    [ rewrite get_user_reach by (proj; done)
    | rewrite add_warning_reach by (proj; done)
    | rewrite update_user_warning_reach by (proj; done)
    | rewrite set_user_muted_reach by (proj; done)
    | rewrite set_user_banned_reach by (proj; done)
    | rewrite remove_subscription_reach by (proj; done)
    | rewrite tg_call_reach by (proj; done)
    | rewrite datetime_add_ok by (proj; done) ];
    cbn beta iota; proj).

(** X11. When every store and transport call goes through (the end of a
    mute being a date), a violation by a registered member with stored
    count [c >= 0] ends normally with the count [c + 1] and the time of
    the warning stored, and with these transport calls in this order: the
    deletion of the message, the calls of the tier, and one notification
    to the administrator.  At new count 1 the tier sends the warning
    notice and the notification names the action WARNING.  At new count 2
    the tier makes no call at all: building the permissions raises, the
    failure is logged, the member is not restricted and not flagged muted,
    and the notification names MUTE_FAILED.  At 3 or more the tier removes
    the member and sends the ban notice, the member is flagged banned and
    the notification names BAN. *)
Theorem escalation_success_path ADMIN_ID update reason m (u : User) w d :
  message update = Some (TgMessage m) →
  from_user m = Some u →
  db_faults w = [] → tg_faults w = [] →
  users w !! id u = Some d →
  0 ≤ warning_count d →
  mute_end_in_range w →
  let n := warning_count d + 1 in
  let action := if n =? 1 then WARNING else if n =? 2 then MUTE_FAILED else BAN in
  let d1 := set_last_warning (utcnow w) (inc_warning_count 1 d) in
  let r := handle_violation ADMIN_ID update reason true w in
  fst r = Ok tt ∧
  users (snd r) !! id u
  = Some (if n =? 1 then d1 else if n =? 2 then d1 else set_is_banned true d1) ∧
  errors (snd r) = (if n =? 2 then (errors w ++ ["mute"])%list else errors w) ∧
  new_calls w (snd r)
  = ([(delete (message_id m), true)]
     ++ tier_calls (chat_id (chat m)) (id u) (tg_first_name u) reason n
     ++ [(send_message ADMIN_ID
            (ViolationAlert (tg_first_name u) (str_or_default (tg_username u) "N/A")
               (id u) reason n action (utcnow w)), true)])%list.
Proof.
  intros Hm Hu Hf Ht Hd Hc HR n action d1 r. subst r action d1.
  unfold mute_end_in_range in HR.
  unfold handle_violation, effective_user, effective_chat, delete_violating_message,
    message_delete, determine_action, notify_admin, tier_calls, ChatPermissions_muted.
  rewrite Hm, Hu. run. reach. rewrite Hd. cbn beta iota. fold n. reach.
  destruct (Z.eqb_spec n 1) as [H1|H1]; destruct (Z.eqb_spec n 2) as [H2|H2];
    destruct (Z.leb_spec 3 n) as [H3|H3]; try lia;
    reach; cbn [fst snd]; unfold new_calls; proj;
    rewrite ?lookup_alter_eq, Hd; rewrite <- ?app_assoc, drop_app_length; done.
Qed.

Lemma escalation_success_path_witness :
  let w1 := snd (handle_violation 99 free_offer_update "Suspicious content" true world0) in
  let r := handle_violation 99 free_offer_update "Suspicious content" true w1 in
  fst r = Ok tt ∧
  (warning_count <$> users (snd r) !! 7 = Some 2 ∧ is_muted <$> users (snd r) !! 7 = Some false) ∧
  errors (snd r) = ["mute"] ∧
  new_calls w1 (snd r)
  = [(delete 1, true);
     (send_message 99
        (ViolationAlert "Ann" "N/A" 7 "Suspicious content" 2 MUTE_FAILED 1000), true)].
Proof.
  pose proof (escalation_success_path 99 free_offer_update "Suspicious content"
                free_offer member7
                (snd (handle_violation 99 free_offer_update "Suspicious content" true world0))
                (set_last_warning 1000 (inc_warning_count 1 member7_doc))
                eq_refl eq_refl eq_refl eq_refl eq_refl ltac:(discriminate)
                ltac:(by vm_compute)) as (H1 & H2 & H3 & H4).
  split; [exact H1|]. split; [split; reflexivity|]. split; [exact H3|exact H4].
Defined.

(** X12. The mute tier never mutes.  On the second violation of a
    registered member, with the store reachable and the end of the mute a
    date, under every schedule of transport failures the restriction is
    not requested and no mute notice is sent: building the permissions
    raises inside the tier, which logs and names the outcome MUTE_FAILED.
    The member is not flagged muted, the Warning record and the count 2
    are stored, the run ends normally, and the transport sees the deletion
    of the message and the notification to the administrator only. *)
Theorem mute_tier_never_restricts ADMIN_ID update reason m (u : User) w d tgf :
  message update = Some (TgMessage m) →
  from_user m = Some u →
  db_faults w = [] →
  users w !! id u = Some d →
  warning_count d = 1 →
  mute_end_in_range w →
  let d1 := set_last_warning (utcnow w) (inc_warning_count 1 d) in
  let alert := send_message ADMIN_ID
                 (ViolationAlert (tg_first_name u) (str_or_default (tg_username u) "N/A")
                    (id u) reason 2 MUTE_FAILED (utcnow w)) in
  let r := handle_violation ADMIN_ID update reason true (with_tg_faults tgf w) in
  fst r = Ok tt ∧
  users (snd r) !! id u = Some d1 ∧
  warnings (snd r)
  = (warnings w ++ [mkWarningDoc (id u) reason ADMIN_ID (utcnow w) false])%list ∧
  (∃ ok1 ok2, new_calls w (snd r) = [(delete (message_id m), ok1); (alert, ok2)]) ∧
  (∀ c, c ∈ new_calls w (snd r) → ∀ cid uid t, fst c ≠ restrict_member cid uid t) ∧
  "mute" ∈ errors (snd r).
Proof.
  intros Hm Hu Hf Hd Hc HR d1 alert r.
  assert (fst r = Ok tt ∧ users (snd r) !! id u = Some d1 ∧
          warnings (snd r)
          = (warnings w ++ [mkWarningDoc (id u) reason ADMIN_ID (utcnow w) false])%list ∧
          (∃ ok1 ok2, new_calls w (snd r) = [(delete (message_id m), ok1); (alert, ok2)]) ∧
          "mute" ∈ errors (snd r)) as (H1 & H2 & H3 & (ok1 & ok2 & H4) & H5).
  { subst d1 alert r. unfold mute_end_in_range in HR.
    unfold handle_violation, effective_user, effective_chat, delete_violating_message,
      message_delete, determine_action, notify_admin, new_calls, ChatPermissions_muted.
    rewrite Hm, Hu. run. rewrite get_user_reach by (proj; done). cbn beta iota. proj.
    rewrite Hd, Hc. cbn beta iota.
    change (1 + 1) with 2. change (2 =? 1) with false. change (2 =? 2) with true.
    cbn beta iota.
    step_tg; reach; (step_tg; cbn [fst snd]; proj;
      rewrite lookup_alter_eq, Hd, <- ?app_assoc, drop_app_length;
      (split; [done|]); (split; [done|]); (split; [done|]);
      (split; [by eexists _, _|]);
      rewrite ?elem_of_app, ?list_elem_of_singleton; tauto). }
  do 3 (split; [done|]). split; [by exists ok1, ok2|]. split; [|done].
  rewrite H4. intros c Hin cid uid t.
  apply elem_of_cons in Hin as [->|Hin]; [done|].
  apply list_elem_of_singleton in Hin as ->. done.
Qed.

Lemma mute_tier_never_restricts_witness :
  let r := handle_violation 99 free_offer_update "Suspicious content" true
             (with_tg_faults [false; true] warned_once_world) in
  fst r = Ok tt ∧
  is_muted <$> users (snd r) !! 7 = Some false ∧
  new_calls warned_once_world (snd r)
  = [(delete 1, true);
     (send_message 99
        (ViolationAlert "Ann" "N/A" 7 "Suspicious content" 2 MUTE_FAILED 1000), false)] ∧
  ∀ c, c ∈ new_calls warned_once_world (snd r) →
       ∀ cid uid t, fst c ≠ restrict_member cid uid t.
Proof.
  pose proof (mute_tier_never_restricts 99 free_offer_update "Suspicious content"
                free_offer member7 warned_once_world
                (set_last_warning 1000 (inc_warning_count 1 member7_doc)) [false; true]
                eq_refl eq_refl eq_refl eq_refl eq_refl ltac:(by vm_compute))
    as (H1 & _ & _ & _ & H5 & _).
  split; [exact H1|]. split; [reflexivity|]. split; [reflexivity|]. exact H5.
Defined.

(** X13. A violation of a registered member whose stored count is 2 or
    more, store reachable.  If the removal from the group is refused, the
    member is not flagged banned, no ban notice is sent and the
    administrator is told BAN_FAILED.  If the removal goes through and the
    ban notice cannot be sent, the outcome is the same BAN_FAILED and the
    member is still not flagged banned, although removed.  In both cases
    the count is raised by one and the run ends normally. *)
Theorem ban_failure_outcomes ADMIN_ID update reason m (u : User) w d (del : bool) fs :
  message update = Some (TgMessage m) →
  from_user m = Some u →
  db_faults w = [] →
  users w !! id u = Some d →
  2 ≤ warning_count d →
  let n := warning_count d + 1 in
  let d1 := set_last_warning (utcnow w) (inc_warning_count 1 d) in
  let ban := ban_member (chat_id (chat m)) (id u) in
  let notice := send_message (chat_id (chat m)) (BanMsg (tg_first_name u) reason n) in
  let alert := send_message ADMIN_ID
                 (ViolationAlert (tg_first_name u) (str_or_default (tg_username u) "N/A")
                    (id u) reason n BAN_FAILED (utcnow w)) in
  let r1 := handle_violation ADMIN_ID update reason true
              (with_tg_faults (del :: true :: fs) w) in
  let r2 := handle_violation ADMIN_ID update reason true
              (with_tg_faults (del :: false :: true :: fs) w) in
  (fst r1 = Ok tt ∧ users (snd r1) !! id u = Some d1 ∧
   ∃ ok, new_calls w (snd r1)
         = [(delete (message_id m), negb del); (ban, false); (alert, ok)]) ∧
  (fst r2 = Ok tt ∧ users (snd r2) !! id u = Some d1 ∧
   ∃ ok, new_calls w (snd r2)
         = [(delete (message_id m), negb del); (ban, true); (notice, false); (alert, ok)]).
Proof.
  intros Hm Hu Hf Hd Hc n d1 ban notice alert r1 r2.
  subst d1 ban notice alert r1 r2.
  destruct w as [us ws ss now g dbf tgf tr er]. cbn [db_faults users] in Hf, Hd. subst dbf.
  assert ((n =? 1) = false) as E1 by (apply Z.eqb_neq; lia).
  assert ((n =? 2) = false) as E2 by (apply Z.eqb_neq; lia).
  assert ((3 <=? n) = true) as E3 by (apply Z.leb_le; lia).
  destruct del; destruct fs as [|[] fs];
    (split;
     unfold handle_violation, effective_user, effective_chat, delete_violating_message,
       message_delete, determine_action, notify_admin, new_calls;
     rewrite Hm, Hu; cbv [tg_call]; unfold_db;
     repeat (progress (rewrite ?Hd; fold n; rewrite ?E1, ?E2, ?E3; unfold_monad;
                       cbn beta iota));
     rewrite lookup_alter_eq, Hd, <- ?app_assoc, drop_app_length;
     (split; [done|]); (split; [done|]); by eexists).
Qed.

Lemma ban_failure_outcomes_witness :
  let r1 := handle_violation 99 free_offer_update "Suspicious content" true
              (with_tg_faults [false; true] warned_twice_world) in
  fst r1 = Ok tt ∧
  (is_banned <$> users (snd r1) !! 7 = Some false ∧
   warning_count <$> users (snd r1) !! 7 = Some 3) ∧
  ∃ ok, new_calls warned_twice_world (snd r1)
        = [(delete 1, true); (ban_member (-5) 7, false);
           (send_message 99
              (ViolationAlert "Ann" "N/A" 7 "Suspicious content" 3 BAN_FAILED 1000), ok)].
Proof.
  pose proof (ban_failure_outcomes 99 free_offer_update "Suspicious content"
                free_offer member7 warned_twice_world
                (set_last_warning 1000 (inc_warning_count 1
                   (set_last_warning 1000 (inc_warning_count 1 member7_doc)))) false []
                eq_refl eq_refl eq_refl eq_refl ltac:(discriminate)) as [(H1 & H2 & H3) _].
  split; [exact H1|]. split; [split; reflexivity|]. exact H3.
Defined.

(** X14. A violation of a registered member whose stored count is
    negative (the store's decrement can produce one), store reachable: no
    branch of the tier chain is taken, so no sanction is attempted and no
    notice sent; building the notification then fails on the unbound
    [action], the run raises [UnboundLocalError] and the administrator is
    not notified.  The Warning record and the raised count are stored all
    the same. *)
Theorem negative_count_violation ADMIN_ID update reason del m (u : User) w d :
  message update = Some (TgMessage m) →
  from_user m = Some u →
  db_faults w = [] →
  users w !! id u = Some d →
  warning_count d < 0 →
  let r := handle_violation ADMIN_ID update reason del w in
  fst r = Raise UnboundLocalError ∧
  (∀ c, c ∈ new_calls w (snd r) → ∃ mid, fst c = delete mid) ∧
  warnings (snd r)
  = (warnings w ++ [mkWarningDoc (id u) reason ADMIN_ID (utcnow w) false])%list ∧
  users (snd r) !! id u = Some (set_last_warning (utcnow w) (inc_warning_count 1 d)).
Proof.
  intros Hm Hu Hf Hd Hc r. subst r.
  set (n := warning_count d + 1).
  assert ((n =? 1) = false) as E1 by (apply Z.eqb_neq; lia).
  assert ((n =? 2) = false) as E2 by (apply Z.eqb_neq; lia).
  assert ((3 <=? n) = false) as E3 by (apply Z.leb_gt; lia).
  unfold handle_violation, effective_user, effective_chat, delete_violating_message,
    message_delete, determine_action.
  rewrite Hm, Hu. run. reach. rewrite Hd. cbn beta iota. fold n.
  rewrite E1, E2, E3.
  destruct del.
  - step_tg; reach; cbn [fst snd]; unfold new_calls; proj;
      rewrite lookup_alter_eq, Hd, drop_app_length;
      (split; [done|]); (split; [|done]);
      intros c ->%list_elem_of_singleton; by eexists.
  - reach. cbn [fst snd]. unfold new_calls. proj. rewrite lookup_alter_eq, Hd, drop_all.
    split; [done|]. split; [|done]. intros c Hc'. by apply elem_of_nil in Hc'.
Qed.

Lemma negative_count_violation_witness :
  let w := snd (update_user_warning 7 false (snd (update_user_warning 7 false world0))) in
  let r := handle_violation 99 free_offer_update "Suspicious content" true w in
  warning_count <$> users w !! 7 = Some (-2) ∧
  fst r = Raise UnboundLocalError ∧
  new_calls w (snd r) = [(delete 1, true)] ∧
  warning_count <$> users (snd r) !! 7 = Some (-1).
Proof.
  split; [reflexivity|].
  pose proof (negative_count_violation 99 free_offer_update "Suspicious content" true
                free_offer member7
                (snd (update_user_warning 7 false (snd (update_user_warning 7 false world0))))
                (inc_warning_count (-1) (inc_warning_count (-1) member7_doc))
                eq_refl eq_refl eq_refl eq_refl eq_refl) as (H1 & _).
  split; [exact H1|]. split; reflexivity.
Defined.

(** ** What the handlers never do *)

Section Preserves.
Context (R : relation World) `{!PreOrder R}.

Lemma preserves_ret {A} (a : A) : preserves R (ret a).
Proof. intros w. reflexivity. Qed.

Lemma preserves_raise {A} e : preserves R (@raise A e).
Proof. intros w. reflexivity. Qed.

Lemma preserves_gets {A} (f : World → A) : preserves R (gets f).
Proof. intros w. reflexivity. Qed.

Lemma preserves_bind {A B} (m : M A) (k : A → M B) :
  preserves R m → (∀ a, preserves R (k a)) → preserves R (bind m k).
Proof.
  intros Hm Hk w. unfold bind. specialize (Hm w).
  destruct (m w) as [[a|e] w1]; cbn [snd] in *; [|done].
  etrans; [exact Hm|apply Hk].
Qed.

Lemma preserves_try {A} (body : M A) catches handler :
  preserves R body → (∀ e, preserves R (handler e)) →
  preserves R (try_except body catches handler).
Proof.
  intros Hb Hh w. unfold try_except. specialize (Hb w).
  destruct (body w) as [[a|e] w1]; cbn [snd] in *; [done|].
  destruct (catches e); [|done]. etrans; [exact Hb|apply Hh].
Qed.

Lemma preserves_for_each {A} (l : list A) (body : A → M unit) :
  (∀ x, preserves R (body x)) → preserves R (for_each l body).
Proof.
  intros Hb. induction l as [|x l IH]; cbn [for_each].
  - apply preserves_ret.
  - apply preserves_bind; [apply Hb | intros _; apply IH].
Qed.

End Preserves.

(** The steps of a handler, down to the calls on the store and on the
    transport. *)
Ltac unfold_handlers :=
  unfold handle_message, handle_violation, admin_warn, welcome_new_member, start,
    send_reminder, check_expired_subscriptions, remove_expired_user,
    delete_violating_message, determine_action, notify_admin,
    message_delete, message_reply_text, effective_user, effective_chat, attr, py_int,
    message_forward_markers, ChatPermissions_muted, datetime_add, timedelta_of_days,
    get_user, create_user, update_user_warning, reset_user_warnings,
    set_user_muted, set_user_banned, add_warning, get_user_warnings,
    add_subscription, get_expired_subscriptions, remove_subscription,
    users_find_one, users_update_one, warnings_insert_one,
    warnings_find_sorted, subscriptions_upsert, subscriptions_find_expired,
    subscriptions_delete_one, logger_error, datetime_utcnow.

(** Reduce [preserves R m] to its single steps; [steps] closes those. *)
Ltac preserve steps :=
  repeat (intros;
    lazymatch goal with
    | |- preserves _ (ret _) => apply preserves_ret; try apply _
    | |- preserves _ (raise _) => apply preserves_raise; try apply _
    | |- preserves _ (gets _) => apply preserves_gets; try apply _
    | |- preserves _ (bind _ _) => apply preserves_bind; try apply _
    | |- preserves _ (try_except _ _ _) => apply preserves_try; try apply _
    | |- preserves _ (for_each _ _) => apply preserves_for_each; try apply _
    | |- preserves _ (match ?x with _ => _ end) => destruct x
    | |- preserves _ (let _ := _ in _) => cbv zeta
    | |- preserves _ _ => steps
    end).

Lemma preserves_bind_ret {A B} (R : relation World) (x : A) (k : A → M B) :
  preserves R (k x) → preserves R (bind (ret x) k).
Proof. intros H w. apply H. Qed.

Lemma record_grows_refl d : record_grows d d.
Proof. unfold record_grows. by repeat split. Qed.

Lemma record_grows_trans d1 d2 d3 :
  record_grows d1 d2 → record_grows d2 d3 → record_grows d1 d3.
Proof.
  unfold record_grows. intros (?&?&?&?&?&?&?&?) (?&?&?&?&?&?&?&?).
  repeat split; try congruence; [lia|auto..].
Qed.

#[local] Instance never_undone_preorder : PreOrder never_undone.
Proof.
  split.
  - intros w. split; [|done]. intros k d Hd. exists d. split; [done|apply record_grows_refl].
  - intros w1 w2 w3 [U1 W1] [U2 W2]. split; [|by etrans].
    intros k d Hd. destruct (U1 k d Hd) as (d2 & Hd2 & G1).
    destruct (U2 k d2 Hd2) as (d3 & Hd3 & G2). exists d3. split; [done|].
    by eapply record_grows_trans.
Qed.

Lemma never_undone_bookkeeping (w w' : World) :
  users w' = users w → warnings w' = warnings w → never_undone w w'.
Proof.
  intros HU HW. split; [|by rewrite HW]. intros k d Hd. exists d.
  rewrite HU. split; [done|apply record_grows_refl].
Qed.

Lemma never_undone_alter f uid :
  (∀ d, record_grows d (f d)) →
  preserves never_undone (modify (with_users (alter f uid))).
Proof.
  intros Hf w. cbn. split; [|done]. proj. intros k d Hd.
  destruct (decide (uid = k)) as [->|Hk].
  - exists (f d). by rewrite lookup_alter_eq, Hd.
  - exists d. rewrite lookup_alter_ne by done. split; [done|apply record_grows_refl].
Qed.

Lemma never_undone_insert_one d : preserves never_undone (users_insert_one d).
Proof.
  intros [us ws ss now g dbf tgf tr er]. unfold_db.
  split_faults dbf; try destruct (us !! user_id d) eqn:E; unfold_monad;
    try (by apply never_undone_bookkeeping);
    (split; [|done]); proj; intros k d0 Hd0; exists d0;
    (split; [|apply record_grows_refl]);
    (rewrite lookup_insert_ne; [done|congruence]).
Qed.

Ltac never_undone_step :=
  first
    [ apply never_undone_insert_one
    | apply never_undone_alter; intros [];
      unfold record_grows, set_last_warning, inc_warning_count, set_is_muted,
        set_is_banned, set_subscription_expiry; cbn; repeat split; (done || lia)
    | intros [us ws ss now g dbf tgf tr er]; unfold db_roundtrip, tg_call, modify;
      cbn [db_faults tg_faults];
      repeat match goal with
        | |- context [match ?l with [] => _ | _ :: _ => _ end] => destruct l as [|[] ?]
        end;
      cbn [snd]; unfold_monad;
      first [ by apply never_undone_bookkeeping
            | split; [intros k d Hd; exists d; (split; [done|apply record_grows_refl])
                     | by apply prefix_app_r ] ] ].

(** X15. No handler of the bot ever lowers a stored warning count,
    clears a mute or ban flag once set, removes a user's record or changes
    who it belongs to, nor removes or alters a stored Warning record: after
    any sequence of handler runs, under any schedule of store and
    transport failures, every record is still there with a count at least
    as high and its flags still set, and the earlier warnings are a prefix
    of the stored ones. *)
Theorem handlers_never_undo ADMIN_ID (str_lower : string → string)
    (int_of_str : string → option Z) (hs : list Handler) (w : World) :
  never_undone w (run_handlers ADMIN_ID str_lower int_of_str hs w).
Proof.
  assert (∀ h, preserves never_undone (run_handler ADMIN_ID str_lower int_of_str h)) as Hone.
  { intros h. destruct h; unfold run_handler; unfold_handlers;
      preserve never_undone_step. }
  revert w. induction hs as [|h hs IH]; intros w; cbn [run_handlers]; [reflexivity|].
  etrans; [apply Hone|apply IH].
Qed.

#[local] Instance only_user_preorder uid : PreOrder (only_user uid).
Proof.
  split.
  - intros w. by repeat split.
  - intros w1 w2 w3 (S1 & G1 & K1 & N1) (S2 & G2 & K2 & N2).
    repeat split; [congruence|congruence| |auto].
    intros k Hk. by rewrite K2, K1.
Qed.

Ltac only_user_step :=
  first
    [ intros w; cbn; unfold only_user; proj;
      (split; [done|]); (split; [done|]);
      split; [intros k Hk; by rewrite lookup_alter_ne
             |intros Hn; by rewrite lookup_alter_eq, Hn]
    | intros [us ws ss now g dbf tgf tr er]; unfold db_roundtrip, tg_call, modify;
      cbn [db_faults tg_faults];
      repeat match goal with
        | |- context [match ?l with [] => _ | _ :: _ => _ end] => destruct l as [|[] ?]
        end;
      cbn [snd]; unfold_monad; by repeat split ].

Ltac preserve_from steps :=
  repeat (intros; cbn beta iota;
    lazymatch goal with
    | |- preserves _ (ret _) => apply preserves_ret; try apply _
    | |- preserves _ (raise _) => apply preserves_raise; try apply _
    | |- preserves _ (gets _) => apply preserves_gets; try apply _
    | |- preserves _ (bind (ret _) _) => apply preserves_bind_ret
    | |- preserves _ (bind _ _) => apply preserves_bind; try apply _
    | |- preserves _ (try_except _ _ _) => apply preserves_try; try apply _
    | |- preserves _ (for_each _ _) => apply preserves_for_each; try apply _
    | |- preserves _ (match ?x with _ => _ end) => destruct x
    | |- preserves _ (let _ := _ in _) => cbv zeta
    | |- preserves _ _ => steps
    end).

(** X16. Handling a message, whatever it holds and under any schedule
    of store and transport failures, changes no subscription, no record of
    a user other than the sender and not the recorded group, and creates
    no record for a sender who has none. *)
Theorem message_touches_sender_only ADMIN_ID (str_lower : string → string)
    update m (u : User) w :
  message update = Some (TgMessage m) →
  from_user m = Some u →
  only_user (id u) w (snd (handle_message ADMIN_ID str_lower update w)).
Proof.
  intros Hm Hu. destruct update as [n msg]. cbn [message] in Hm. subst msg.
  destruct m. cbn [from_user] in Hu. subst.
  revert w. change (preserves (only_user (id u)) (handle_message ADMIN_ID str_lower
    (mkUpdate n (Some (TgMessage (mkMessage message_id0 (Some u) chat0
       entities0 caption_entities0 text0 caption0 new_chat_members0)))))).
  unfold_handlers. cbn [message from_user chat truthy negb].
  preserve_from only_user_step.
Qed.

Lemma message_touches_sender_only_witness :
  only_user 7 world0 (snd (handle_message 99 (λ s, s) free_offer_update world0)).
Proof.
  apply (message_touches_sender_only 99 (λ s, s) free_offer_update free_offer member7 world0
           eq_refl eq_refl).
Defined.

#[local] Instance counts_kept_preorder : PreOrder counts_kept.
Proof.
  split.
  - intros w. do 2 (split; [done|]). intros k d Hd. by exists d.
  - intros w1 w2 w3 (W1 & G1 & U1) (W2 & G2 & U2).
    split; [congruence|]. split; [congruence|].
    intros k d Hd. destruct (U1 k d Hd) as (d2 & Hd2 & ? & ?).
    destruct (U2 k d2 Hd2) as (d3 & Hd3 & ? & ?). exists d3.
    split; [done|]. split; congruence.
Qed.

Ltac counts_kept_step :=
  first
    [ intros w; cbn; unfold counts_kept; proj;
      (split; [done|]); (split; [done|]);
      intros k d Hd; rewrite lookup_alter, Hd; case_decide; subst; rewrite ?Hd;
      eexists; (split; [reflexivity|]); by destruct d
    | intros [us ws ss now g dbf tgf tr er]; unfold db_roundtrip, tg_call, modify;
      cbn [db_faults tg_faults];
      repeat match goal with
        | |- context [match ?l with [] => _ | _ :: _ => _ end] => destruct l as [|[] ?]
        end;
      cbn [snd]; unfold_monad;
      (split; [done|]); (split; [done|]); intros k d Hd; by exists d ].

(** X17. The daily sweep, under any schedule of store and transport
    failures, changes no Warning record, no user's warning count or mute
    flag and not the recorded group, and removes no user record: expiry
    of a subscription costs a member the subscription, not the history. *)
Theorem sweep_keeps_history ADMIN_ID w :
  counts_kept w (snd (check_expired_subscriptions ADMIN_ID w)).
Proof.
  revert w. change (preserves counts_kept (check_expired_subscriptions ADMIN_ID)).
  unfold_handlers. preserve counts_kept_step.
Qed.

(** X18. With a group recorded and the store reachable, the daily sweep
    leaves alone every user whose subscription has not expired or who has
    none: no removal of that user is attempted, and the user's record and
    subscription are as before, whatever happens to the other users. *)
Theorem sweep_leaves_unexpired ADMIN_ID w gid uid :
  group_id w = Some gid → gid ≠ 0 → db_faults w = [] →
  (∀ s, subscriptions w !! uid = Some s → utcnow w ≤ expiry_date s) →
  let w' := snd (check_expired_subscriptions ADMIN_ID w) in
  users w' !! uid = users w !! uid ∧
  subscriptions w' !! uid = subscriptions w !! uid ∧
  ∀ ok, (ban_member gid uid, ok) ∉ new_calls w w'.
Proof.
  intros Hg Hgid Hf Hs w'. subst w'.
  unfold check_expired_subscriptions. run. rewrite Hg.
  destruct (Z.eqb_spec gid 0) as [|_]; [done|].
  rewrite (get_expired_subscriptions_reach w Hf). cbn beta iota.
  destruct (sweep_loop ADMIN_ID gid _ (expired_ids_NoDup w) w Hf)
    as (w' & l & E & _ & T & K & B & _).
  rewrite E. cbn [snd]. rewrite (new_calls_app _ _ _ T).
  assert (uid ∉ (filter (λ kv, expiry_date kv.2 < utcnow w)
                   (map_to_list (subscriptions w))).*1) as Hnot.
  { rewrite expired_ids_spec. intros (s & Hs' & Hlt). specialize (Hs s Hs'). lia. }
  destruct (K uid Hnot) as [-> ->]. do 2 (split; [done|]).
  intros ok Hin. by destruct (B uid ok Hin) as [? _].
Qed.

Lemma sweep_leaves_unexpired_witness :
  let w' := snd (check_expired_subscriptions 99 two_subscribers_world) in
  fst (get_expired_subscriptions two_subscribers_world) = Ok [7] ∧
  users w' !! 8 = users two_subscribers_world !! 8 ∧
  subscriptions w' !! 8 = subscriptions two_subscribers_world !! 8 ∧
  ∀ ok, (ban_member (-5) 8, ok) ∉ new_calls two_subscribers_world w'.
Proof.
  split; [reflexivity|].
  apply (sweep_leaves_unexpired 99 two_subscribers_world (-5) 8 eq_refl
           ltac:(discriminate) eq_refl).
  intros s Hs. vm_compute in Hs. injection Hs as <-. discriminate.
Defined.

Lemma send_reminder_to_group w gid :
  group_id w = Some gid → gid ≠ 0 →
  fst (send_reminder w) = Ok tt ∧
  ∃ ok, new_calls w (snd (send_reminder w)) = [(send_message gid ReminderMsg, ok)].
Proof.
  intros Hg Hgid. unfold send_reminder, new_calls. run. rewrite Hg.
  destruct (Z.eqb_spec gid 0) as [|_]; [done|].
  step_tg; cbn [fst snd]; proj; rewrite drop_app_length; (split; [done|]); by eexists.
Qed.

(** X19. The reminder never raises and changes no collection.  With no
    group recorded it does nothing at all; with a group recorded it makes
    exactly one transport call, the reminder text to that group, and a
    failure of that call is logged, not raised. *)
Theorem send_reminder_best_effort w :
  let r := send_reminder w in
  fst r = Ok tt ∧
  users (snd r) = users w ∧ warnings (snd r) = warnings w ∧
  subscriptions (snd r) = subscriptions w ∧
  match group_id w with
  | Some gid =>
      if gid =? 0 then snd r = w
      else ∃ ok : bool,
             new_calls w (snd r) = [(send_message gid ReminderMsg, ok)] ∧
             errors (snd r)
             = if ok then errors w else (errors w ++ ["send_reminder"])%list
  | None => snd r = w
  end.
Proof.
  unfold send_reminder, new_calls. run.
  destruct (group_id w) as [gid|] eqn:Hg; [|done].
  destruct (Z.eqb_spec gid 0) as [->|Hgid]; [done|].
  step_tg; cbn [fst snd]; proj; rewrite drop_app_length; do 4 (split; [done|]).
  - by exists true.
  - by exists false.
Qed.

(** X20. When the bot itself is the new member of a group, the handler
    records that group, whatever the outcome of its reply, and registers
    nobody; the next reminder is then sent to that group. *)
Theorem bot_added_then_reminder ADMIN_ID update context m (b : User) w :
  message update = Some (TgMessage m) →
  new_chat_members m = [b] →
  id b = bot_id context →
  chat_id (chat m) ≠ 0 →
  let w1 := snd (welcome_new_member ADMIN_ID update context w) in
  group_id w1 = Some (chat_id (chat m)) ∧
  users w1 = users w ∧
  (∃ ok, new_calls w w1 = [(reply_text BotActivated, ok)]) ∧
  fst (send_reminder w1) = Ok tt ∧
  ∃ ok, new_calls w1 (snd (send_reminder w1))
        = [(send_message (chat_id (chat m)) ReminderMsg, ok)].
Proof.
  intros Hm Hb Hid Hc w1.
  assert (group_id w1 = Some (chat_id (chat m)) ∧ users w1 = users w ∧
          ∃ ok, new_calls w w1 = [(reply_text BotActivated, ok)]) as (Hg & HU & Hcalls).
  { subst w1. unfold welcome_new_member, message_reply_text, effective_chat, new_calls.
    rewrite Hm, Hb. run. cbn [for_each]. rewrite Hid, Z.eqb_refl. run.
    step_tg; cbn [snd]; proj; rewrite drop_app_length; do 2 (split; [done|]); by eexists. }
  do 3 (split; [done|]).
  apply (send_reminder_to_group w1 _ Hg Hc).
Qed.

Lemma bot_added_then_reminder_witness :
  let w1 := snd (welcome_new_member 99 bot_added_update (mkContext [] 1) world0) in
  group_id world0 = Some (-5) ∧
  group_id w1 = Some (-77) ∧
  ∃ ok, new_calls w1 (snd (send_reminder w1)) = [(send_message (-77) ReminderMsg, ok)].
Proof.
  split; [reflexivity|].
  pose proof (bot_added_then_reminder 99 bot_added_update (mkContext [] 1) _ bot_user world0
                eq_refl eq_refl eq_refl ltac:(discriminate)) as (H1 & _ & _ & _ & H2).
  split; [exact H1|exact H2].
Defined.

(** X21. A single new member who is neither the bot nor a bot.  If the
    member has a record, the record and every other one stay as they
    were, under any schedule of failures (a member who joins again keeps
    warnings and flags).  If the member has none and the store is
    reachable, a record is created with the member's names, no warnings
    and no flags, whether or not the welcome and the notification can be
    sent.  A new member flagged as a bot is skipped: nothing is stored or
    sent. *)
Theorem welcome_registers_member ADMIN_ID update context m (member : User) w :
  message update = Some (TgMessage m) →
  new_chat_members m = [member] →
  id member ≠ bot_id context →
  let w1 := snd (welcome_new_member ADMIN_ID update context w) in
  (is_bot member = true → w1 = w) ∧
  (is_bot member = false →
   (∀ d, users w !! id member = Some d → users w1 = users w) ∧
   (users w !! id member = None → db_faults w = [] →
    users w1
    = <[id member := mkUserDoc (id member) (str_or_default (tg_username member) "")
                       (tg_first_name member) (str_or_default (tg_last_name member) "")
                       (utcnow w) 0 false false None None None]> (users w))).
Proof.
  intros Hm Hb Hid w1. subst w1.
  unfold welcome_new_member, message_reply_text, notify_admin.
  rewrite Hm, Hb. run. cbn [for_each].
  destruct (Z.eqb_spec (id member) (bot_id context)) as [|_]; [done|].
  destruct (is_bot member); (split; [intros ?|intros ?]); try done.
  split.
  - intros d Hd.
    destruct (create_user_existing_users (id member)
                (str_or_default (tg_username member) "") (tg_first_name member)
                (str_or_default (tg_last_name member) "") w d Hd) as (w1 & E & HU).
    run. rewrite E. cbn beta iota. rewrite <- HU. step_tg; [step_tg|]; done.
  - intros Hn Hf. run. rewrite (create_user_reach _ _ _ _ _ Hf Hn). cbn beta iota.
    step_tg; [step_tg|]; done.
Qed.

Lemma welcome_registers_member_witness :
  let w1 := snd (welcome_new_member 99 newcomer_joins (mkContext [] 1)
                   (with_tg_faults [true] world0)) in
  users w1 = <[8 := mkUserDoc 8 "bob" "Bob" "" 1000 0 false false None None None]>
               (users world0).
Proof.
  pose proof (welcome_registers_member 99 newcomer_joins (mkContext [] 1) _ newcomer
                (with_tg_faults [true] world0) eq_refl eq_refl ltac:(discriminate))
    as [_ H].
  exact (proj2 (H eq_refl) eq_refl eq_refl).
Defined.

(** X22. The commands are for the administrator only.  From any other
    sender, [/warn] is ignored without a word: no reply, no change to the
    world; [/start] is answered with the admins-only text and nothing
    else, and no collection changes. *)
Theorem commands_are_admin_only ADMIN_ID (int_of_str : string → option Z)
    update context m (u : User) w :
  message update = Some (TgMessage m) →
  from_user m = Some u →
  id u ≠ ADMIN_ID →
  admin_warn ADMIN_ID int_of_str update context w = (Ok tt, w) ∧
  let r := start ADMIN_ID update w in
  (∃ ok, new_calls w (snd r) = [(reply_text AdminsOnly, ok)]) ∧
  users (snd r) = users w ∧ warnings (snd r) = warnings w ∧
  subscriptions (snd r) = subscriptions w.
Proof.
  intros Hm Hu Hid. apply Z.eqb_neq in Hid.
  unfold admin_warn, start, effective_user, message_reply_text, new_calls.
  rewrite Hm, Hu. run. rewrite Hid. cbn [negb]. split; [done|].
  step_tg; cbn [snd]; proj; rewrite drop_app_length; (split; [by eexists|done]).
Qed.

Lemma commands_are_admin_only_witness :
  admin_warn 99 int_on_examples free_offer_update warn_args world0 = (Ok tt, world0) ∧
  ∃ ok, new_calls world0 (snd (start 99 free_offer_update world0))
        = [(reply_text AdminsOnly, ok)].
Proof.
  pose proof (commands_are_admin_only 99 int_on_examples free_offer_update warn_args
                free_offer member7
                world0 eq_refl eq_refl ltac:(discriminate)) as (H1 & H2 & _).
  split; [exact H1|exact H2].
Defined.

(** X23. What the administrator gets back from [/warn].  With fewer
    than two arguments: the usage text.  With a first argument on which
    [int] raises [ValueError]: the invalid-id text, and nothing is logged.
    With a first argument that [int] accepts, whatever its value, and a
    reason: the text that issuing the warning failed, and the failure is
    logged.  In each case that reply is the only transport call. *)
Theorem admin_warn_replies ADMIN_ID (int_of_str : string → option Z)
    update context m (u : User) w :
  message update = Some (TgMessage m) →
  from_user m = Some u →
  id u = ADMIN_ID →
  let r := admin_warn ADMIN_ID int_of_str update context w in
  let replied t := ∃ ok, new_calls w (snd r) = [(reply_text t, ok)] in
  match args context with
  | first_arg :: _ :: _ =>
      match int_of_str first_arg with
      | None => replied InvalidUserId ∧ errors (snd r) = errors w
      | Some _ =>
          replied ErrorIssuingWarning ∧
          errors (snd r) = (errors w ++ ["admin_warn"])%list
      end
  | _ => replied WarnUsage ∧ errors (snd r) = errors w
  end.
Proof.
  intros Hm Hu Hid r replied. subst r replied.
  unfold admin_warn, effective_user, message_reply_text, new_calls, py_int.
  rewrite Hm, Hu. run. rewrite Hid, Z.eqb_refl. cbn [negb].
  destruct (args context) as [|a [|b rest]]; cbn [length Nat.ltb Nat.leb nth].
  - step_tg; cbn [snd]; proj; rewrite drop_app_length; (split; [by eexists|done]).
  - step_tg; cbn [snd]; proj; rewrite drop_app_length; (split; [by eexists|done]).
  - destruct (int_of_str a); run.
    + rewrite handle_violation_mock. cbn beta iota.
      step_tg; cbn [snd]; proj; rewrite drop_app_length; (split; [by eexists|done]).
    + step_tg; cbn [snd]; proj; rewrite drop_app_length; (split; [by eexists|done]).
Qed.

Lemma admin_warn_replies_witness :
  let r := admin_warn 99 int_on_examples warn_command (mkContext ["seven"; "spam"] 1) world0 in
  (∃ ok, new_calls world0 (snd r) = [(reply_text InvalidUserId, ok)]) ∧
  errors (snd r) = errors world0.
Proof.
  apply (admin_warn_replies 99 int_on_examples warn_command (mkContext ["seven"; "spam"] 1)
           _ admin99 world0 eq_refl eq_refl eq_refl).
Defined.

(** ** The connection retry *)

(** X24. [connect] makes at most three attempts and never runs off its
    loop without a connection.  It returns connected exactly when one of
    the three attempts goes through and every attempt before it raised
    [ConnectionFailure]; it raises [ConnectionFailure] exactly when all
    three attempts do, after three attempts and three logged errors; any
    other exception of an attempt leaves at once, without a retry.  Each
    failed attempt that [connect] catches is logged. *)
Theorem connect_retries (cw : ConnectWorld) :
  let r := connect cw in
  let o := attempt_outcome cw in
  let failed i := o i = AttemptRaises ConnectionFailure in
  let made := (attempts_made (snd r) - attempts_made cw)%nat in
  let logged := (connect_errors_logged (snd r) - connect_errors_logged cw)%nat in
  fst r ≠ NotConnected ∧
  (1 ≤ made ≤ 3)%nat ∧
  (fst r = Connected ↔
     o 0%nat = AttemptOk ∨ (failed 0%nat ∧ o 1%nat = AttemptOk) ∨
     (failed 0%nat ∧ failed 1%nat ∧ o 2%nat = AttemptOk)) ∧
  (fst r = ConnectRaises ConnectionFailure ↔ failed 0%nat ∧ failed 1%nat ∧ failed 2%nat) ∧
  (fst r = ConnectRaises ConnectionFailure → made = 3%nat ∧ logged = 3%nat) ∧
  (fst r = Connected → logged = (made - 1)%nat) ∧
  (fst r = ConnectRaises OtherDriverError →
     o (made - 1)%nat = AttemptRaises OtherDriverError ∧ logged = (made - 1)%nat).
Proof.
  destruct cw as [sched made0 logged0].
  unfold connect, attempt_outcome. cbn [seq max_retries attempts_to_come].
  destruct sched as [|[|[]] [|[|[]] [|[|[]] sched]]];
    cbn; repeat split; try (intros; lia); try congruence; try tauto;
    try (intros [?|[[??]|[?[??]]]]; congruence);
    try (intros [?[??]]; congruence);
    try replace (S (S (S made0)) - made0 - 1)%nat with 2%nat by lia;
    try replace (S (S made0) - made0 - 1)%nat with 1%nat by lia;
    try replace (S made0 - made0 - 1)%nat with 0%nat by lia;
    done.
Qed.

(** ** Running the sweep twice *)




